(** * hyprload: plugin manifests, plugin sources and the build orchestrator

    A shallow embedding of [src/HyprloadPlugin.cpp].  Pure code (string and
    path arithmetic, the manifest constructors) becomes Rocq functions;
    code that talks to the outside (the file system, [std::system], [popen],
    the TOML parser) becomes a command in a small monad that threads the
    state of the outside world, records every interaction in a trace and
    distinguishes a returned value from a C++ exception and from undefined
    behaviour.

    Conventions: [size_t] has 64 bits and its arithmetic wraps around; paths
    are POSIX paths, compared as the strings they are built from; exit
    statuses are integers and only compared with 0.  The functions of
    [Hyprload.cpp] and of the libraries the code calls are fields of the
    environment [Env], so that every property holds for whatever they do. *)

From Stdlib Require Import ZArith Lia Ascii String List.
From stdpp Require Import base tactics option list strings.

Set Warnings "-register-all".

Local Open Scope string_scope.
Local Open Scope Z_scope.
Local Open Scope list_scope.

(** ** std::string *)

Module Str.

(** [std::string::npos], the largest value of the 64-bit [size_t]. *)
Definition size_max : Z := 2 ^ 64.
Definition npos : Z := size_max - 1.

(** Addition on [size_t] wraps around. *)
Definition size_add (a b : Z) : Z := (a + b) mod size_max.

Definition size (s : string) : Z := Z.of_nat (String.length s).

(** [hay.find(needle)]: the first position at which [needle] occurs, or
    [npos].  [i] is the position of the head of [hay] in the whole
    string. *)
Fixpoint find_from (needle hay : string) (i : Z) : Z :=
  if String.prefix needle hay then i
  else match hay with
       | EmptyString => npos
       | String _ rest => find_from needle rest (i + 1)
       end.

Definition find (hay needle : string) : Z := find_from needle hay 0.

(** [s.find_last_of(c)]: the last position holding [c], or [npos].
    [found] is the last position seen so far. *)
Fixpoint find_last_of_from (c : ascii) (s : string) (i found : Z) : Z :=
  match s with
  | EmptyString => found
  | String a rest =>
      find_last_of_from c rest (i + 1) (if Ascii.eqb a c then i else found)
  end.

Definition find_last_of (s : string) (c : ascii) : Z :=
  find_last_of_from c s 0 npos.

Fixpoint drop (n : nat) (s : string) : string :=
  match n, s with
  | O, _ => s
  | S _, EmptyString => EmptyString
  | S n', String _ rest => drop n' rest
  end.

(** [s.substr(pos)]: the characters from [pos] on; [std::out_of_range]
    ([None]) when [pos > s.size()]. *)
Definition substr (s : string) (pos : Z) : option string :=
  if size s <? pos then None else Some (drop (Z.to_nat pos) s).

(** The expression [s.substr(s.find_last_of('/') + 1)], used by both
    [GitPluginSource] and [PluginRequirement]. *)
Definition after_last_slash (s : string) : option string :=
  substr s (size_add (find_last_of s "/"%char) 1).

(** What that expression computes, by structural recursion: the characters
    after the last ['/'], or the whole string when it has none. *)
Fixpoint has_slash (s : string) : bool :=
  match s with
  | EmptyString => false
  | String a rest => Ascii.eqb a "/"%char || has_slash rest
  end.

Fixpoint last_segment (s : string) : string :=
  match s with
  | EmptyString => EmptyString
  | String a rest => if has_slash s then last_segment rest else s
  end.

End Str.

(** ** std::filesystem::path (POSIX, lexical operations only) *)

Definition path := string.

Module Path.

Definition is_absolute (p : path) : bool := String.prefix "/" p.

Fixpoint ends_with_separator (p : path) : bool :=
  match p with
  | EmptyString => false
  | String a EmptyString => Ascii.eqb a "/"%char
  | String _ rest => ends_with_separator rest
  end.

(** A path has a filename unless it is empty or ends in a separator. *)
Definition has_filename (p : path) : bool :=
  match p with
  | EmptyString => false
  | _ => negb (ends_with_separator p)
  end.

(** [p / q]: an absolute [q] replaces [p]; otherwise [q] is appended, after
    a separator when [p] has a filename. *)
Definition append (p q : path) : path :=
  if is_absolute q then q
  else if has_filename p then p +:+ "/" +:+ q
  else p +:+ q.

(** [p.filename()]: what follows the last separator. *)
Definition filename (p : path) : path := Str.last_segment p.

End Path.

Infix "//" := Path.append (at level 40, left associativity).

(** ** Outcomes of C++ code

    A piece of code returns a value, leaves through an exception
    ([std::runtime_error] and the like, with its [what()]), or has undefined
    behaviour (here always a null pointer that is dereferenced). *)

Inductive Outcome (A : Type) : Type :=
| Value (a : A)
| Throw (what : string)
| Undefined.
Arguments Value {A} a.
Arguments Throw {A} what.
Arguments Undefined {A}.

Definition obind {A B} (m : Outcome A) (f : A -> Outcome B) : Outcome B :=
  match m with
  | Value a => f a
  | Throw what => Throw what
  | Undefined => Undefined
  end.

Declare Scope outcome_scope.
Delimit Scope outcome_scope with outcome.
Notation "'let*' x := m 'in' k" := (obind m (fun x => k))
  (at level 10, x name, m at level 100, k at level 200) : outcome_scope.

(** [p->member] on a pointer that may be null. *)
Definition deref {A} (p : option A) : Outcome A :=
  match p with
  | Some a => Value a
  | None => Undefined
  end.

Definition is_value {A} (o : Outcome A) : bool :=
  match o with Value _ => true | _ => false end.

Definition is_throw {A} (o : Outcome A) : bool :=
  match o with Throw _ => true | _ => false end.

(** ** The TOML document model of toml++

    The header [toml/toml.hpp] is not part of the sources; the node kinds and
    the accessors below follow the toml++ interface the code is written
    against.  Integers and booleans stand for every kind that is neither a
    string, an array nor a table (floats, dates and times behave like them
    in all the code below).  A table lists its entries in the order in which
    [for_each] visits them; toml++ keeps a table sorted by key, so this is
    the order of the keys, not the order of the lines of the file. *)

Module Toml.

Inductive node : Type :=
| Str (s : string)
| Integer (z : Z)
| Boolean (b : bool)
| Array (elems : list node)
| Table (entries : list (string * node)).

Definition table := list (string * node).

(** [t.get(key)]: a pointer to the node, null when there is none;
    [t[key]] is the same as a [node_view]. *)
Fixpoint get (t : table) (key : string) : option node :=
  match t with
  | [] => None
  | (k, v) :: rest => if String.eqb k key then Some v else get rest key
  end.

Definition contains (t : table) (key : string) : bool :=
  match get t key with Some _ => true | None => false end.

Definition is_string (v : node) : bool :=
  match v with Str _ => true | _ => false end.
Definition is_array (v : node) : bool :=
  match v with Array _ => true | _ => false end.
Definition is_table (v : node) : bool :=
  match v with Table _ => true | _ => false end.

(** [as_string()], [as_array()], [as_table()]: null on another kind. *)
Definition as_string (v : node) : option string :=
  match v with Str s => Some s | _ => None end.
Definition as_array (v : node) : option (list node) :=
  match v with Array l => Some l | _ => None end.
Definition as_table (v : node) : option table :=
  match v with Table t => Some t | _ => None end.

(** The same accessors on a [node_view] (or a pointer known to be non-null
    because [contains] was tested first): an empty view is of no kind and
    converts to null. *)
Definition view_is_string (v : option node) : bool := from_option is_string false v.
Definition view_is_array (v : option node) : bool := from_option is_array false v.
Definition view_is_table (v : option node) : bool := from_option is_table false v.
Definition view_as_string (v : option node) : option string := v ≫= as_string.
Definition view_as_array (v : option node) : option (list node) := v ≫= as_array.
Definition view_as_table (v : option node) : option table := v ≫= as_table.

Definition all_strings (elems : list node) : bool := forallb is_string elems.

(** The fields the constructor reads as strings without testing them. *)
Definition scalar_ok (v : option node) : bool :=
  match v with
  | None | Some (Str _) => true
  | _ => false
  end.

Definition scalars_ok (t : table) : bool :=
  (view_is_array (get t "authors") || scalar_ok (get t "author"))
  && scalar_ok (get t "version") && scalar_ok (get t "description").

(** The tables a manifest must not be constructed from: [build] missing or
    not a table, [build.steps] missing, not an array or holding a
    non-string, [authors] an array holding a non-string. *)
Definition must_be_rejected (t : table) : bool :=
  match get t "authors" with
  | Some (Array authors) => negb (all_strings authors)
  | _ => false
  end
  || match get t "build" with
     | Some (Table build) =>
         match get build "steps" with
         | Some (Array steps) => negb (all_strings steps)
         | _ => true
         end
     | _ => true
     end.

(** Removing a key, to say that a field is not looked at. *)
Fixpoint erase (t : table) (key : string) : table :=
  match t with
  | [] => []
  | (k, v) :: rest =>
      if String.eqb k key then erase rest key else (k, v) :: erase rest key
  end.

End Toml.

(** ** Manifest model *)

Record PluginManifest : Type := {
  m_sName : string;
  m_sAuthors : list string;
  m_sVersion : string;
  m_sDescription : string;
  m_pBinaryOutputPath : path;
  m_sBuildSteps : list string;
}.

Local Open Scope outcome_scope.

(** The body of the two [for_each] lambdas of the constructor: every element
    must be a string and is pushed onto the vector [acc]. *)
Fixpoint push_strings (what : string) (elems : list Toml.node)
    (acc : list string) : Outcome (list string) :=
  match elems with
  | [] => Value acc
  | value :: rest =>
      if negb (Toml.is_string value) then Throw what
      else
        let* s := deref (Toml.as_string value) in
        push_strings what rest (acc ++ [s])
  end.

(** [PluginManifest::PluginManifest(std::string&& name, const toml::table&)] *)
Definition PluginManifest_ctor (name : string) (manifest : Toml.table)
    : Outcome PluginManifest :=
  let* authors :=
    if Toml.contains manifest "authors"
       && Toml.view_is_array (Toml.get manifest "authors")
    then
      let* arr := deref (Toml.view_as_array (Toml.get manifest "authors")) in
      push_strings "Author must be a string" arr []
    else if Toml.contains manifest "author" then
      let* a := deref (Toml.view_as_string (Toml.get manifest "author")) in
      Value [a]
    else Value [] in
  let* version :=
    if Toml.contains manifest "version"
    then deref (Toml.view_as_string (Toml.get manifest "version"))
    else Value "0.0.0" in
  let* description :=
    if Toml.contains manifest "description"
    then deref (Toml.view_as_string (Toml.get manifest "description"))
    else Value "No description provided" in
  if Toml.contains manifest "build"
     && Toml.view_is_table (Toml.get manifest "build")
  then
    let* build := deref (Toml.view_as_table (Toml.get manifest "build")) in
    let* output :=
      if Toml.contains build "output"
         && Toml.view_is_string (Toml.get build "output")
      then deref (Toml.view_as_string (Toml.get build "output"))
      else Value (name +:+ ".so") in
    if Toml.contains build "steps"
       && Toml.view_is_array (Toml.get build "steps")
    then
      let* arr := deref (Toml.view_as_array (Toml.get build "steps")) in
      let* steps := push_strings "Build step must be a string" arr [] in
      Value {| m_sName := name;
               m_sAuthors := authors;
               m_sVersion := version;
               m_sDescription := description;
               m_pBinaryOutputPath := output;
               m_sBuildSteps := steps |}
    else Throw "Plugin must have build steps"
  else Throw "Plugin must have a build table".

Definition getName (m : PluginManifest) : string := m_sName m.
Definition getAuthors (m : PluginManifest) : list string := m_sAuthors m.
Definition getVersion (m : PluginManifest) : string := m_sVersion m.
Definition getDescription (m : PluginManifest) : string := m_sDescription m.
Definition getBinaryOutputPath (m : PluginManifest) : path := m_pBinaryOutputPath m.
Definition getBuildSteps (m : PluginManifest) : list string := m_sBuildSteps m.

Record HyprloadManifest : Type := {
  m_vPlugins : list PluginManifest;
}.

(** The [for_each] of [HyprloadManifest::HyprloadManifest]: one
    [PluginManifest] per entry whose value is a table, in order. *)
Fixpoint emplace_plugins (entries : Toml.table) (plugins : list PluginManifest)
    : Outcome (list PluginManifest) :=
  match entries with
  | [] => Value plugins
  | (key, value) :: rest =>
      if Toml.is_table value then
        let* table := deref (Toml.as_table value) in
        let* plugin := PluginManifest_ctor key table in
        emplace_plugins rest (plugins ++ [plugin])
      else emplace_plugins rest plugins
  end.

(** [HyprloadManifest::HyprloadManifest(const toml::table&)] *)
Definition HyprloadManifest_ctor (manifest : Toml.table) : Outcome HyprloadManifest :=
  let* plugins := emplace_plugins manifest [] in
  Value {| m_vPlugins := plugins |}.

Definition getPlugins (m : HyprloadManifest) : list PluginManifest := m_vPlugins m.

(** The constructor of [PluginManifest], phase by phase; the phases are the
    sub-expressions of [PluginManifest_ctor], named. *)
Definition authors_of (manifest : Toml.table) : Outcome (list string) :=
  if Toml.contains manifest "authors"
     && Toml.view_is_array (Toml.get manifest "authors")
  then
    let* arr := deref (Toml.view_as_array (Toml.get manifest "authors")) in
    push_strings "Author must be a string" arr []
  else if Toml.contains manifest "author" then
    let* a := deref (Toml.view_as_string (Toml.get manifest "author")) in
    Value [a]
  else Value [].

Definition string_or (manifest : Toml.table) (key default : string)
    : Outcome string :=
  if Toml.contains manifest key
  then deref (Toml.view_as_string (Toml.get manifest key))
  else Value default.

Definition output_of (name : string) (build : Toml.table) : Outcome path :=
  if Toml.contains build "output"
     && Toml.view_is_string (Toml.get build "output")
  then deref (Toml.view_as_string (Toml.get build "output"))
  else Value (name +:+ ".so").

Definition steps_of (build : Toml.table) : Outcome (list string) :=
  if Toml.contains build "steps"
     && Toml.view_is_array (Toml.get build "steps")
  then
    let* arr := deref (Toml.view_as_array (Toml.get build "steps")) in
    push_strings "Build step must be a string" arr []
  else Throw "Plugin must have build steps".

Definition build_of (manifest : Toml.table) : Outcome Toml.table :=
  if Toml.contains manifest "build"
     && Toml.view_is_table (Toml.get manifest "build")
  then deref (Toml.view_as_table (Toml.get manifest "build"))
  else Throw "Plugin must have a build table".

Local Close Scope outcome_scope.

(** ** The outside world

    Everything the code reaches outside itself is a field of [Env]: the path
    discovery of [Hyprload.cpp] (not part of the sources), the file system
    calls of [std::filesystem], the TOML parser and the two ways of running
    a shell command.  [state] is the state of the machine; a call that may
    throw returns [None] when it does. *)

Record Env : Type := {
  state : Type;
  getPluginsPath : path;
  getPluginBinariesPath : path;
  getHyprlandHeadersPath : state -> option path;
  (** [std::filesystem::exists]: the answer, [None] when it throws (a
      status that cannot be read for another reason than a missing file) *)
  fs_exists : path -> state -> option bool;
  fs_remove : path -> state -> option state;
  fs_copy : path -> path -> state -> option state;
  (** [toml::parse] on the string the code hands it (the path of the
      manifest): the table, or the [what()] of the exception *)
  toml_parse : string -> state -> string + Toml.table;
  (** [std::system]: the returned status and the new state *)
  std_system : string -> state -> Z * state;
  (** [popen] ... [pclose]: [None] when [popen] returns null, otherwise the
      status returned by [pclose], everything read from the pipe and the
      new state *)
  popen_run : string -> state -> option (Z * string * state);
}.

(** What the code did to the outside, in order. *)
Inductive Event : Type :=
| EvHeaders
| EvExists (p : path)
| EvRemove (p : path)
| EvCopy (from to : path)
| EvParse (doc : string)
| EvSystem (command : string)
| EvPopen (command : string).

(** [hyprload::Result<T, std::string>] *)
Inductive Result (T : Type) : Type :=
| ok (t : T)
| err (e : string).
Arguments ok {T} t.
Arguments err {T} e.

Definition isErr {T} (r : Result T) : bool :=
  match r with ok _ => false | err _ => true end.

(** A command runs from a state to an outcome, the state it leaves and the
    trace of what it did. *)
Definition Cmd (S A : Type) : Type := S -> Outcome A * S * list Event.

Definition ret {S A} (a : A) : Cmd S A := fun s => (Value a, s, []).

Definition bind {S A B} (m : Cmd S A) (f : A -> Cmd S B) : Cmd S B :=
  fun s =>
    match m s with
    | (Value a, s1, t1) =>
        match f a s1 with
        | (r, s2, t2) => (r, s2, t1 ++ t2)
        end
    | (Throw what, s1, t1) => (Throw what, s1, t1)
    | (Undefined, s1, t1) => (Undefined, s1, t1)
    end.

(** Pure code that may throw, run inside a command. *)
Definition lift {S A} (o : Outcome A) : Cmd S A := fun s => (o, s, []).

Declare Scope cmd_scope.
Delimit Scope cmd_scope with cmd.
Notation "'let!' x := m 'in' k" := (bind m (fun x => k))
  (at level 10, x name, m at level 100, k at level 200) : cmd_scope.
Notation "'let!' ' p := m 'in' k" := (bind m (fun x => match x with p => k end))
  (at level 10, p strict pattern, m at level 100, k at level 200) : cmd_scope.

Definition result_of {S A} (x : Outcome A * S * list Event) : Outcome A := x.1.1.
Definition state_of {S A} (x : Outcome A * S * list Event) : S := x.1.2.
Definition trace_of {S A} (x : Outcome A * S * list Event) : list Event := x.2.

Local Open Scope cmd_scope.

Section Program.

Context (E : Env).

Abbreviation World := (state E).

(** *** The calls to the outside, each leaving one event *)

Definition headers_path : Cmd World (option path) :=
  fun s => (Value (getHyprlandHeadersPath E s), s, [EvHeaders]).

(** [std::filesystem::exists(p)]: it throws [filesystem_error] when the
    status of [p] cannot be read. *)
Definition exists_ (p : path) : Cmd World bool :=
  fun s =>
    match fs_exists E p s with
    | Some answer => (Value answer, s, [EvExists p])
    | None => (Throw "filesystem error: cannot stat", s, [EvExists p])
    end.

Definition remove_ (p : path) : Cmd World unit :=
  fun s =>
    match fs_remove E p s with
    | Some s' => (Value tt, s', [EvRemove p])
    | None => (Throw "filesystem error: cannot remove", s, [EvRemove p])
    end.

Definition copy_ (from to : path) : Cmd World unit :=
  fun s =>
    match fs_copy E from to s with
    | Some s' => (Value tt, s', [EvCopy from to])
    | None => (Throw "filesystem error: cannot copy", s, [EvCopy from to])
    end.

Definition parse_ (doc : string) : Cmd World (string + Toml.table) :=
  fun s => (Value (toml_parse E doc s), s, [EvParse doc]).

Definition system_ (command : string) : Cmd World Z :=
  fun s =>
    match std_system E command s with
    | (status, s') => (Value status, s', [EvSystem command])
    end.

(** [executeCommand]: the exit status and the output of a shell command,
    [(-1, "Failed to execute command")] when the pipe cannot be opened. *)
Definition executeCommand (command : string) : Cmd World (Z * string) :=
  fun s =>
    match popen_run E command s with
    | None => (Value (-1, "Failed to execute command"), s, [EvPopen command])
    | Some (exit, result, s') => (Value (exit, result), s', [EvPopen command])
    end.

(** *** Loading manifests *)

Definition getHyprlandManifest (sourcePath : path)
    : Cmd World (Result HyprloadManifest) :=
  let manifestPath := sourcePath // "hyprload.toml" in
  let! present := exists_ manifestPath in
  if negb present then
    ret (err "Source does not have a hyprload.toml manifest")
  else
    let! parsed := parse_ manifestPath in
    match parsed with
    | inl what => ret (err ("Failed to parse source manifest: " +:+ what))
    | inr manifest =>
        let! hyprloadManifest := lift (HyprloadManifest_ctor manifest) in
        ret (ok hyprloadManifest)
    end.

(** The loop of [getPluginManifest]: the first plugin of that name. *)
Fixpoint find_plugin (name : string) (plugins : list PluginManifest)
    : option PluginManifest :=
  match plugins with
  | [] => None
  | plugin :: rest =>
      if String.eqb (getName plugin) name then Some plugin
      else find_plugin name rest
  end.

Definition getPluginManifest (sourcePath : path) (name : string)
    : Cmd World (Result PluginManifest) :=
  let! hyprloadManifest := getHyprlandManifest sourcePath in
  match hyprloadManifest with
  | err e => ret (err e)
  | ok hyprloadManifest =>
      match find_plugin name (getPlugins hyprloadManifest) with
      | None => ret (err ("Plugin does not have a manifest for " +:+ name))
      | Some pluginManifest => ret (ok pluginManifest)
      end
  end.

(** *** The build orchestrator *)

Definition headers_error : string :=
  "Could not find hyprland headers. Refer to https://github.com/Duckonaut/hyprload#Setup".

(** The shell line [buildPlugin] assembles. *)
Definition build_command (headers sourcePath : path) (steps : list string)
    : string :=
  let buildSteps :=
    "export HYPRLAND_HEADERS=" +:+ headers +:+ " && cd " +:+ sourcePath +:+ " && " in
  let buildSteps :=
    fold_left (fun acc step => acc +:+ (step +:+ " && ")) steps buildSteps in
  buildSteps +:+ "cd -".

Definition buildPlugin (sourcePath : path) (name : string)
    : Cmd World (Result unit) :=
  let! hyprlandHeadersPath := headers_path in
  let! pluginManifestResult := getPluginManifest sourcePath name in
  match pluginManifestResult with
  | err e => ret (err e)
  | ok pluginManifest =>
      match hyprlandHeadersPath with
      | None => ret (err headers_error)
      | Some headers =>
          let buildSteps :=
            build_command headers sourcePath (getBuildSteps pluginManifest) in
          let! '(exit, output) := executeCommand buildSteps in
          if negb (exit =? 0) then
            ret (err ("Failed to build plugin: " +:+ output))
          else ret (ok tt)
      end
  end.

(** *** Git sources *)

Record GitPluginSource : Type := {
  git_sUrl : string;
  git_sBranch : string;
  git_pSourcePath : path;
}.

(** [GitPluginSource::GitPluginSource(std::string&& url, std::string&& branch)] *)
Definition GitPluginSource_ctor (url branch : string) : Outcome GitPluginSource :=
  let m_sUrl :=
    if Str.find url "https://" =? 0 then url
    else if Str.find url "git@" =? 0 then url
    else "https://github.com/" +:+ url +:+ ".git" in
  match Str.after_last_slash m_sUrl with
  | None => Throw "std::out_of_range"
  | Some segment =>
      Value {| git_sUrl := m_sUrl;
               git_sBranch := branch;
               git_pSourcePath := getPluginsPath E // "src" // segment |}
  end.

Definition GitPluginSource_installSource (this : GitPluginSource)
    : Cmd World (Result unit) :=
  let command :=
    "git clone " +:+ git_sUrl this +:+ " " +:+ git_pSourcePath this
      +:+ " --branch " +:+ git_sBranch this +:+ " --depth 1" in
  let! status := system_ command in
  if negb (status =? 0) then ret (err "Failed to clone plugin source")
  else ret (ok tt).

Definition GitPluginSource_isSourceAvailable (this : GitPluginSource)
    : Cmd World bool :=
  exists_ (git_pSourcePath this // ".git").

Definition GitPluginSource_isUpToDate (this : GitPluginSource) : Cmd World bool :=
  let command := "git -C " +:+ git_pSourcePath this +:+ " remote update" in
  let! status := system_ command in
  if negb (status =? 0) then ret false
  else
    let command := "git -C " +:+ git_pSourcePath this +:+ " status -uno" in
    let! '(exit, output) := executeCommand command in
    ret (negb (exit =? 0) && (Str.find output "ahead" =? Str.npos)).

Definition GitPluginSource_build (this : GitPluginSource) (name : string)
    : Cmd World (Result unit) :=
  buildPlugin (git_pSourcePath this) name.

Definition GitPluginSource_install (this : GitPluginSource) (name : string)
    : Cmd World (Result unit) :=
  let! available := GitPluginSource_isSourceAvailable this in
  if negb available then GitPluginSource_installSource this
  else
    let! result := GitPluginSource_build this name in
    if isErr result then ret result
    else
      let! pluginManifestResult := getPluginManifest (git_pSourcePath this) name in
      match pluginManifestResult with
      | err e => ret (err e)
      | ok pluginManifest =>
          let outputBinary :=
            git_pSourcePath this // getBinaryOutputPath pluginManifest in
          let! built := exists_ outputBinary in
          if negb built then ret (err "Plugin binary does not exist")
          else
            let targetPath :=
              getPluginBinariesPath E // Path.filename outputBinary in
            let! stale := exists_ targetPath in
            let! _ := (if stale then remove_ targetPath else ret tt) in
            let! _ := copy_ outputBinary targetPath in
            ret (ok tt)
      end.

Definition GitPluginSource_update (this : GitPluginSource) (name : string)
    : Cmd World (Result unit) :=
  let command := "git -C " +:+ git_pSourcePath this +:+ " pull" in
  let! status := system_ command in
  if negb (status =? 0) then ret (err "Failed to update plugin source")
  else GitPluginSource_install this name.

(** *** Local sources *)

Record LocalPluginSource : Type := {
  local_pSourcePath : path;
}.

Definition LocalPluginSource_ctor (p : path) : LocalPluginSource :=
  {| local_pSourcePath := p |}.

Definition LocalPluginSource_installSource (this : LocalPluginSource)
    : Cmd World (Result unit) :=
  ret (ok tt).

Definition LocalPluginSource_isSourceAvailable (this : LocalPluginSource)
    : Cmd World bool :=
  exists_ (local_pSourcePath this).

Definition LocalPluginSource_isUpToDate (this : LocalPluginSource)
    : Cmd World bool :=
  ret false.

Definition LocalPluginSource_build (this : LocalPluginSource) (name : string)
    : Cmd World (Result unit) :=
  buildPlugin (local_pSourcePath this) name.

Definition LocalPluginSource_install (this : LocalPluginSource) (name : string)
    : Cmd World (Result unit) :=
  let! available := LocalPluginSource_isSourceAvailable this in
  if negb available then
    ret (err ("Source for " +:+ name +:+ " does not exist"))
  else
    let! result := LocalPluginSource_build this name in
    if isErr result then ret result
    else
      let! pluginManifestResult :=
        getPluginManifest (local_pSourcePath this) name in
      match pluginManifestResult with
      | err e => ret (err e)
      | ok pluginManifest =>
          let outputBinary :=
            local_pSourcePath this // getBinaryOutputPath pluginManifest in
          let! built := exists_ outputBinary in
          if negb built then ret (err "Plugin binary does not exist")
          else
            let targetPath :=
              getPluginBinariesPath E // Path.filename outputBinary in
            let! stale := exists_ targetPath in
            let! _ := (if stale then remove_ targetPath else ret tt) in
            let! _ := copy_ outputBinary targetPath in
            ret (ok tt)
      end.

Definition LocalPluginSource_update (this : LocalPluginSource) (name : string)
    : Cmd World (Result unit) :=
  LocalPluginSource_install this name.

(** *** The two variants behind one interface *)

Inductive PluginSource : Type :=
| Git (source : GitPluginSource)
| Local (source : LocalPluginSource).

Definition sourcePath (this : PluginSource) : path :=
  match this with
  | Git g => git_pSourcePath g
  | Local l => local_pSourcePath l
  end.

Definition isSourceAvailable (this : PluginSource) : Cmd World bool :=
  match this with
  | Git g => GitPluginSource_isSourceAvailable g
  | Local l => LocalPluginSource_isSourceAvailable l
  end.

Definition isUpToDate (this : PluginSource) : Cmd World bool :=
  match this with
  | Git g => GitPluginSource_isUpToDate g
  | Local l => LocalPluginSource_isUpToDate l
  end.

Definition install (this : PluginSource) (name : string)
    : Cmd World (Result unit) :=
  match this with
  | Git g => GitPluginSource_install g name
  | Local l => LocalPluginSource_install l name
  end.

(** *** The common part of the two [install]s, named

    Both [install]s end in the same statements once the source is known to
    be there: [install_present] is that tail, [publish] the part of it that
    follows the loading of the manifest. *)

Definition publish (sourcePath : path) (pluginManifest : PluginManifest)
    : Cmd World (Result unit) :=
  let outputBinary := sourcePath // getBinaryOutputPath pluginManifest in
  let! built := exists_ outputBinary in
  if negb built then ret (err "Plugin binary does not exist")
  else
    let targetPath := getPluginBinariesPath E // Path.filename outputBinary in
    let! stale := exists_ targetPath in
    let! _ := (if stale then remove_ targetPath else ret tt) in
    let! _ := copy_ outputBinary targetPath in
    ret (ok tt).

Definition install_present (sourcePath : path) (name : string)
    : Cmd World (Result unit) :=
  let! result := buildPlugin sourcePath name in
  if isErr result then ret result
  else
    let! pluginManifestResult := getPluginManifest sourcePath name in
    match pluginManifestResult with
    | err e => ret (err e)
    | ok pluginManifest => publish sourcePath pluginManifest
    end.

(** The artifact [install] looks for and the place it copies it to. *)
Definition outputBinary_of (sourcePath : path) (pluginManifest : PluginManifest)
    : path :=
  sourcePath // getBinaryOutputPath pluginManifest.

Definition targetPath_of (sourcePath : path) (pluginManifest : PluginManifest)
    : path :=
  getPluginBinariesPath E
    // Path.filename (outputBinary_of sourcePath pluginManifest).

(** The commands handed to the shell by a Git source. *)
Definition clone_command (this : GitPluginSource) : string :=
  "git clone " +:+ git_sUrl this +:+ " " +:+ git_pSourcePath this
    +:+ " --branch " +:+ git_sBranch this +:+ " --depth 1".

Definition fetch_command (this : GitPluginSource) : string :=
  "git -C " +:+ git_pSourcePath this +:+ " remote update".

Definition status_command (this : GitPluginSource) : string :=
  "git -C " +:+ git_pSourcePath this +:+ " status -uno".

(** What the first [exists] of an [install] looks at. *)
Definition presence_marker (this : PluginSource) : path :=
  match this with
  | Git g => git_pSourcePath g // ".git"
  | Local l => local_pSourcePath l
  end.

(** *** Requirements *)

Record PluginRequirement : Type := {
  req_sName : string;
  req_pSource : PluginSource;
  req_pBinaryPath : path;
}.

Local Open Scope outcome_scope.

(** The branch a requirement asks for. *)
Definition branch_or_main (plugin : Toml.table) : string :=
  match Toml.get plugin "branch" with
  | Some (Toml.Str branch) => branch
  | _ => "main"
  end.

(** [PluginRequirement::PluginRequirement(const toml::table& plugin)] *)
Definition PluginRequirement_ctor (plugin : Toml.table)
    : Outcome PluginRequirement :=
  let* chosen :=
    if Toml.contains plugin "git"
       && Toml.view_is_string (Toml.get plugin "git")
    then
      let* source := deref (Toml.view_as_string (Toml.get plugin "git")) in
      let* branch :=
        if Toml.contains plugin "branch"
           && Toml.view_is_string (Toml.get plugin "branch")
        then deref (Toml.view_as_string (Toml.get plugin "branch"))
        else Value "main" in
      let* g := GitPluginSource_ctor source branch in
      Value (source, Git g)
    else if Toml.contains plugin "local"
            && Toml.view_is_string (Toml.get plugin "local")
    then
      let* source := deref (Toml.view_as_string (Toml.get plugin "local")) in
      Value (source, Local (LocalPluginSource_ctor source))
    else Throw "Plugin must have a source" in
  let source := chosen.1 in
  let* name :=
    if Toml.contains plugin "name"
       && Toml.view_is_string (Toml.get plugin "name")
    then deref (Toml.view_as_string (Toml.get plugin "name"))
    else
      match Str.after_last_slash source with
      | None => Throw "std::out_of_range"
      | Some segment => Value segment
      end in
  Value {| req_sName := name;
           req_pSource := chosen.2;
           req_pBinaryPath := getPluginsPath E // "bin" // (name +:+ ".so") |}.

Local Close Scope outcome_scope.

End Program.


(** ** A small concrete world

    A flat file system (every existing path with its content, a directory
    with the empty content), a parser that answers with one fixed document,
    and shell commands whose status and output are looked up in a table.  A
    [std::system] command that succeeds leaves the files [cloned] behind, a
    piped command that succeeds the files [built]. *)

Module Sim.

Record Config : Type := {
  plugins_dir : path;
  headers : option path;
  document : string + Toml.table;
  status_of : string -> Z;
  pipe_of : string -> option (Z * string);
  cloned : list (path * string);
  built : list (path * string);
}.

(** The files, the most recent entry of a path first. *)
Definition files := list (path * string).

Fixpoint read (s : files) (p : path) : option string :=
  match s with
  | [] => None
  | (q, content) :: rest => if String.eqb q p then Some content else read rest p
  end.

Fixpoint unlink (s : files) (p : path) : files :=
  match s with
  | [] => []
  | (q, content) :: rest =>
      if String.eqb q p then unlink rest p else (q, content) :: unlink rest p
  end.

Definition env (c : Config) : Env := {|
  state := files;
  getPluginsPath := plugins_dir c;
  getPluginBinariesPath := plugins_dir c // "bin";
  getHyprlandHeadersPath := fun _ => headers c;
  fs_exists := fun p s =>
    Some (match read s p with Some _ => true | None => false end);
  fs_remove := fun p s => Some (unlink s p);
  fs_copy := fun from to s =>
    match read s from, read s to with
    | Some content, None => Some ((to, content) :: s)
    | _, _ => None
    end;
  toml_parse := fun _ _ => document c;
  std_system := fun command s =>
    (status_of c command,
     if status_of c command =? 0 then cloned c ++ s else s);
  popen_run := fun command s =>
    match pipe_of c command with
    | None => None
    | Some (exit, output) =>
        Some (exit, output, if exit =? 0 then built c ++ s else s)
    end;
|}.

(** The plugin [bar] of the repository [foo/bar], whose manifest declares
    the artifact [libbar.so]. *)
Definition bar_document : Toml.table :=
  [("bar", Toml.Table
      [("build", Toml.Table
          [("output", Toml.Str "libbar.so");
           ("steps", Toml.Array [Toml.Str "make"])])])].

Definition bar_config : Config := {|
  plugins_dir := "/p";
  headers := Some "/usr/include/hyprland";
  document := inr bar_document;
  status_of := fun _ => 0;
  pipe_of := fun _ => Some (0, "ok");
  cloned := [("/p/src/bar.git/.git", EmptyString);
             ("/p/src/bar.git/hyprload.toml", "[bar]")];
  built := [("/p/src/bar.git/libbar.so", "ELF")];
|}.

Definition bar_env : Env := env bar_config.

(** The same machine without the hyprland headers. *)
Definition no_headers_config : Config := {|
  plugins_dir := "/p";
  headers := None;
  document := inr bar_document;
  status_of := fun _ => 0;
  pipe_of := fun _ => Some (0, "ok");
  cloned := cloned bar_config;
  built := built bar_config;
|}.

Definition no_headers_env : Env := env no_headers_config.

(** A machine on which every piped command fails, [git status] included. *)
Definition failing_pipe_config : Config := {|
  plugins_dir := "/p";
  headers := Some "/usr/include/hyprland";
  document := inr bar_document;
  status_of := fun _ => 0;
  pipe_of := fun _ => Some (32768, "fatal: not a git repository");
  cloned := cloned bar_config;
  built := [];
|}.

Definition failing_pipe_env : Env := env failing_pipe_config.

Definition bar_requirement : Toml.table := [("git", Toml.Str "foo/bar")].

(** A requirement whose [git] field is not a string. *)
Definition mistyped_git_requirement : Toml.table :=
  [("git", Toml.Integer 1); ("local", Toml.Str "/home/u/widget")].

Definition bar_source : GitPluginSource := {|
  git_sUrl := "https://github.com/foo/bar.git";
  git_sBranch := "main";
  git_pSourcePath := "/p/src/bar.git";
|}.

Definition bar_manifest : PluginManifest := {|
  m_sName := "bar";
  m_sAuthors := [];
  m_sVersion := "0.0.0";
  m_sDescription := "No description provided";
  m_pBinaryOutputPath := "libbar.so";
  m_sBuildSteps := ["make"];
|}.

(** The tree of [bar] once cloned. *)
Definition bar_cloned : files := cloned bar_config.

End Sim.


(** ** Sample documents *)

Module Sample.

Import Toml.

Definition widget_table : table :=
  [("build", Table [("steps", Array [Str "make"; Str "make install"])])].

Definition widget_manifest : PluginManifest := {|
  m_sName := "widget";
  m_sAuthors := [];
  m_sVersion := "0.0.0";
  m_sDescription := "No description provided";
  m_pBinaryOutputPath := "widget.so";
  m_sBuildSteps := ["make"; "make install"];
|}.

(** [authors = 7] next to [author = "ann"] *)
Definition scalar_authors_table : table :=
  [("author", Str "ann"); ("authors", Integer 7);
   ("build", Table [("steps", Array [Str "make"])])].

(** [authors = "ann, bob"] and no [author] *)
Definition string_authors_table : table :=
  [("authors", Str "ann, bob");
   ("build", Table [("steps", Array [Str "make"])])].

(** [version = 1] and no [build] table *)
Definition bad_version_no_build : table := [("version", Integer 1)].

(** [version = 1] in an otherwise complete entry *)
Definition bad_version_table : table :=
  [("build", Table [("steps", Array [Str "make"])]);
   ("version", Integer 1)].

End Sample.

(** ** Comparing sources

    [std::filesystem::path::operator==] is the library's; the comparison of
    two paths is a parameter here. *)

Section Comparison.

Variable path_eq : path -> path -> bool.

(** The [typeid] test of [operator==]: the two sources are of different
    variants. *)
Definition typeid_differs (this other : PluginSource) : bool :=
  match this, other with
  | Git _, Git _ | Local _, Local _ => false
  | _, _ => true
  end.

(** [GitPluginSource::isEquivalent]: [other] is cast to a Git source
    without a test, which is undefined when it is none. *)
Definition GitPluginSource_isEquivalent (this : GitPluginSource)
    (other : PluginSource) : Outcome bool :=
  match other with
  | Git otherLocal =>
      Value (String.eqb (git_sUrl this) (git_sUrl otherLocal)
             && String.eqb (git_sBranch this) (git_sBranch otherLocal)
             && path_eq (git_pSourcePath this) (git_pSourcePath otherLocal))
  | Local _ => Undefined
  end.

(** [LocalPluginSource::isEquivalent] *)
Definition LocalPluginSource_isEquivalent (this : LocalPluginSource)
    (other : PluginSource) : Outcome bool :=
  match other with
  | Local otherLocal =>
      Value (path_eq (local_pSourcePath this) (local_pSourcePath otherLocal))
  | Git _ => Undefined
  end.

Definition isEquivalent (this other : PluginSource) : Outcome bool :=
  match this with
  | Git g => GitPluginSource_isEquivalent g other
  | Local l => LocalPluginSource_isEquivalent l other
  end.

(** [PluginSource::operator==] *)
Definition PluginSource_eq (this other : PluginSource) : Outcome bool :=
  if typeid_differs this other then Value false
  else isEquivalent this other.

End Comparison.

(** ** Names for what the further properties speak of *)

(** An [authors] array with an element that is not a string. *)
Definition bad_authors (t : Toml.table) : bool :=
  match Toml.get t "authors" with
  | Some (Toml.Array authors) => negb (Toml.all_strings authors)
  | _ => false
  end.

(** The entries of a document that are tables, in order. *)
Definition table_entries (doc : list (string * Toml.node))
    : list (string * Toml.node) :=
  filter (fun entry => Toml.is_table entry.2 = true) doc.

(** The events that change the binaries directory. *)
Definition publishes (ev : Event) : bool :=
  match ev with
  | EvRemove _ | EvCopy _ _ => true
  | _ => false
  end.

(** A trace that leaves the binaries directory alone. *)
Definition quiet (t : list Event) : Prop :=
  Forall (fun ev => publishes ev = false) t.

(** The events that run a command. *)
Definition runs_command (ev : Event) : bool :=
  match ev with
  | EvSystem _ | EvPopen _ => true
  | _ => false
  end.

(** The string a requirement takes its source from. *)
Definition requirement_source (plugin : Toml.table) : option string :=
  match Toml.get plugin "git" with
  | Some (Toml.Str source) => Some source
  | _ =>
      match Toml.get plugin "local" with
      | Some (Toml.Str source) => Some source
      | _ => None
      end
  end.

(** The URL a Git source keeps for what it was given. *)
Definition normalised_url (url : string) : string :=
  if String.prefix "https://" url || String.prefix "git@" url then url
  else "https://github.com/" +:+ url +:+ ".git".

(** The command of [GitPluginSource::update]. *)
Definition pull_command (this : GitPluginSource) : string :=
  "git -C " +:+ git_pSourcePath this +:+ " pull".

(** The prologue of the build line. *)
Definition build_prologue (headers sourcePath : path) : string :=
  "export HYPRLAND_HEADERS=" +:+ headers +:+ " && cd " +:+ sourcePath +:+ " && ".

(** What [buildPlugin] makes of the exit status and the output of the build
    line. *)
Definition build_verdict (exit : Z) (output : string) : Result unit :=
  if negb (exit =? 0) then err ("Failed to build plugin: " +:+ output)
  else ok tt.

(** ** More samples *)

Module More.

(** A document whose second entry [baz] has no [build] table. *)
Definition spoiled_document : Toml.table :=
  Sim.bar_document ++ [("baz", Toml.Table [("version", Toml.Str "1.0")])].

Definition spoiled_config : Sim.Config := {|
  Sim.plugins_dir := "/p";
  Sim.headers := Some "/usr/include/hyprland";
  Sim.document := inr spoiled_document;
  Sim.status_of := fun _ => 0;
  Sim.pipe_of := fun _ => Some (0, "ok");
  Sim.cloned := Sim.cloned Sim.bar_config;
  Sim.built := Sim.built Sim.bar_config;
|}.

Definition spoiled_env : Env := Sim.env spoiled_config.

(** A machine on which [git pull] fails. *)
Definition offline_config : Sim.Config := {|
  Sim.plugins_dir := "/p";
  Sim.headers := Some "/usr/include/hyprland";
  Sim.document := inr Sim.bar_document;
  Sim.status_of := fun _ => 256;
  Sim.pipe_of := fun _ => Some (0, "ok");
  Sim.cloned := [];
  Sim.built := [];
|}.

Definition offline_env : Env := Sim.env offline_config.

(** The tree of [bar] as a local directory. *)
Definition bar_directory : LocalPluginSource :=
  LocalPluginSource_ctor "/p/src/bar.git".

Definition bar_checked_out : Sim.files :=
  ("/p/src/bar.git", EmptyString) :: Sim.bar_cloned.

(** A document with two plugins and two entries that are no tables, as
    [for_each] visits it. *)
Definition mixed_document : Toml.table :=
  [("alpha", Toml.Table [("build", Toml.Table [("steps", Toml.Array [])])]);
   ("beta", Toml.Table
      [("author", Toml.Str "eve");
       ("authors", Toml.Array [Toml.Str "ann"; Toml.Str "bob"]);
       ("build", Toml.Table
          [("output", Toml.Str "out/beta.so");
           ("steps", Toml.Array [Toml.Str "make"])]);
       ("version", Toml.Str "1.2")]);
   ("count", Toml.Integer 2);
   ("title", Toml.Str "plugins")].

Definition alpha_manifest : PluginManifest := {|
  m_sName := "alpha";
  m_sAuthors := [];
  m_sVersion := "0.0.0";
  m_sDescription := "No description provided";
  m_pBinaryOutputPath := "alpha.so";
  m_sBuildSteps := [];
|}.

Definition beta_table : Toml.table :=
  [("author", Toml.Str "eve");
   ("authors", Toml.Array [Toml.Str "ann"; Toml.Str "bob"]);
   ("build", Toml.Table
      [("output", Toml.Str "out/beta.so");
       ("steps", Toml.Array [Toml.Str "make"])]);
   ("version", Toml.Str "1.2")].

Definition beta_manifest : PluginManifest := {|
  m_sName := "beta";
  m_sAuthors := ["ann"; "bob"];
  m_sVersion := "1.2";
  m_sDescription := "No description provided";
  m_pBinaryOutputPath := "out/beta.so";
  m_sBuildSteps := ["make"];
|}.

Definition mixed_manifest : HyprloadManifest :=
  {| m_vPlugins := [alpha_manifest; beta_manifest] |}.

(** A requirement with a name of its own. *)
Definition named_requirement : Toml.table :=
  [("local", Toml.Str "/home/u/widget"); ("name", Toml.Str "gadget")].

End More.

(** * Properties *)

(** ** Strings and paths *)

Section StringFacts.

Import Str.

Lemma find_last_of_from_none s i found :
  has_slash s = false -> find_last_of_from "/" s i found = found.
Proof.
  revert i found. induction s as [|a s IH]; intros i found H; simpl in *.
  - reflexivity.
  - apply orb_false_iff in H as [Ha Hs]. rewrite Ha. by apply IH.
Qed.

Lemma last_segment_none s : has_slash s = false -> last_segment s = s.
Proof. destruct s as [|a s]; simpl; [done|]. by intros ->. Qed.

(** With a slash in [s], the position found lies inside [s] and the
    characters after it are the last segment. *)
Lemma find_last_of_from_some s : forall i found,
  has_slash s = true ->
  let r := find_last_of_from "/" s i found in
  i <= r < i + size s /\ drop (Z.to_nat (r - i + 1)) s = last_segment s.
Proof.
  unfold size. induction s as [|a s IH]; intros i found H; [done|].
  cbn [find_last_of_from last_segment]. rewrite H.
  cbn [has_slash] in H. cbn [String.length].
  destruct (has_slash s) eqn:Hs.
  - specialize (IH (i + 1) (if Ascii.eqb a "/" then i else found) eq_refl).
    cbv zeta in IH. destruct IH as [Hr Hd]. split; [lia|].
    replace (Z.to_nat (find_last_of_from "/" s (i + 1)
               (if Ascii.eqb a "/" then i else found) - i + 1))
      with (S (Z.to_nat (find_last_of_from "/" s (i + 1)
               (if Ascii.eqb a "/" then i else found) - (i + 1) + 1))) by lia.
    exact Hd.
  - rewrite orb_false_r in H. rewrite H.
    rewrite find_last_of_from_none by done.
    split; [lia|]. replace (i - i + 1) with 1 by lia.
    simpl. by rewrite last_segment_none.
Qed.

Lemma size_nonneg s : 0 <= size s.
Proof. unfold size. lia. Qed.

(** [s.substr(s.find_last_of('/') + 1)] never throws. *)
Lemma after_last_slash_total s : is_Some (after_last_slash s).
Proof.
  unfold after_last_slash, substr, find_last_of.
  destruct (has_slash s) eqn:Hs.
  - destruct (find_last_of_from_some s 0 npos Hs) as [Hr _].
    set (r := find_last_of_from "/" s 0 npos) in *.
    assert (size_add r 1 <= r + 1).
    { unfold size_add, size_max. apply Z.mod_le; lia. }
    destruct (size s <? size_add r 1) eqn:Hlt; [lia|]. by eexists.
  - rewrite find_last_of_from_none by done.
    change (size_add npos 1) with 0.
    pose proof (size_nonneg s).
    destruct (size s <? 0) eqn:Hlt; [lia|]. by eexists.
Qed.

(** On every string a [std::string] can hold it is the last segment. *)
Lemma after_last_slash_spec s :
  size s < npos -> after_last_slash s = Some (last_segment s).
Proof.
  intros Hlen. unfold after_last_slash, substr, find_last_of.
  destruct (has_slash s) eqn:Hs.
  - destruct (find_last_of_from_some s 0 npos Hs) as [Hr Hd].
    set (r := find_last_of_from "/" s 0 npos) in *.
    assert (size_add r 1 = r + 1) as ->.
    { unfold size_add, size_max. apply Z.mod_small.
      unfold npos, size_max in Hlen. lia. }
    destruct (size s <? r + 1) eqn:Hlt; [lia|].
    f_equal. rewrite <- Hd. f_equal. lia.
  - rewrite find_last_of_from_none by done.
    change (size_add npos 1) with 0.
    pose proof (size_nonneg s).
    destruct (size s <? 0) eqn:Hlt; [lia|].
    simpl. by rewrite last_segment_none.
Qed.

Lemma has_slash_app a b : has_slash (a +:+ b) = has_slash a || has_slash b.
Proof.
  induction a as [|c a IH]; simpl; [done|]. rewrite IH. by rewrite orb_assoc.
Qed.

Lemma last_segment_app a b :
  last_segment (a +:+ b)
  = if has_slash b then last_segment b else last_segment a +:+ b.
Proof.
  induction a as [|c a IH].
  - simpl. destruct (has_slash b) eqn:Hb; [done|]. by apply last_segment_none.
  - change (String c a +:+ b) with (String c (a +:+ b)).
    cbn [last_segment has_slash]. rewrite has_slash_app.
    destruct (has_slash b) eqn:Hb.
    + rewrite !orb_true_r. exact IH.
    + rewrite !orb_false_r. destruct (Ascii.eqb c "/" || has_slash a); [exact IH|done].
Qed.

Lemma size_app a b : size (a +:+ b) = size a + size b.
Proof.
  unfold size. induction a as [|c a IH].
  { change (EmptyString +:+ b) with b. simpl. lia. }
  change (String c a +:+ b) with (String c (a +:+ b)).
  cbn [String.length]. lia.
Qed.

Lemma separator_has_slash p :
  Path.ends_with_separator p = true -> has_slash p = true.
Proof.
  induction p as [|c p IH]; [done|]. destruct p as [|d p].
  - simpl. by intros ->.
  - intros H. specialize (IH H).
    cbn [has_slash] in *. rewrite IH. by rewrite orb_true_r.
Qed.

Lemma last_segment_separator p :
  Path.ends_with_separator p = true -> last_segment p = EmptyString.
Proof.
  induction p as [|c p IH]; [done|]. destruct p as [|d p].
  - simpl. by intros ->.
  - intros H. change (Path.ends_with_separator (String d p) = true) in H.
    change (last_segment (String c (String d p)))
      with (if Ascii.eqb c "/" || has_slash (String d p)
            then last_segment (String d p) else String c (String d p)).
    rewrite (separator_has_slash _ H), orb_true_r. exact (IH H).
Qed.

(** The filename of [p / q] is the filename of [q]. *)
Lemma filename_append p q : Path.filename (p // q) = Path.filename q.
Proof.
  unfold Path.filename, Path.append.
  destruct (Path.is_absolute q); [done|].
  destruct (Path.has_filename p) eqn:Hp.
  - rewrite last_segment_app.
    change ("/" +:+ q) with (String "/" q). reflexivity.
  - rewrite last_segment_app. destruct (has_slash q) eqn:Hq; [done|].
    rewrite (last_segment_none q) by done.
    destruct p as [|c p]; [done|]. unfold Path.has_filename in Hp.
    apply negb_false_iff in Hp. by rewrite last_segment_separator.
Qed.

(** A path without a separator is its own filename. *)
Lemma filename_plain p : has_slash p = false -> Path.filename p = p.
Proof. apply last_segment_none. Qed.

End StringFacts.

(** ** Manifest parsing *)

Section ManifestFacts.

Import Toml.

Lemma push_strings_value what elems acc l :
  push_strings what elems acc = Value l ->
  exists ss, elems = map Str ss /\ l = acc ++ ss.
Proof.
  revert acc. induction elems as [|v elems IH]; intros acc H; simpl in H.
  - exists []. simplify_eq. by rewrite app_nil_r.
  - destruct v; simpl in H; try done.
    apply IH in H as (ss & -> & ->). exists (s :: ss).
    split; [done|]. by rewrite <- app_assoc.
Qed.

Lemma push_strings_all what elems acc :
  all_strings elems = true ->
  exists ss, elems = map Str ss /\ push_strings what elems acc = Value (acc ++ ss).
Proof.
  revert acc. induction elems as [|v elems IH]; intros acc H; simpl in *.
  - exists []. by rewrite app_nil_r.
  - apply andb_true_iff in H as [Hv Hrest]. destruct v; try done. simpl.
    destruct (IH (acc ++ [s]) Hrest) as (ss & -> & ->).
    exists (s :: ss). split; [done|]. by rewrite <- app_assoc.
Qed.

Lemma push_strings_throw what elems acc :
  all_strings elems = false -> push_strings what elems acc = Throw what.
Proof.
  revert acc. induction elems as [|v elems IH]; intros acc H; simpl in *; [done|].
  destruct (is_string v) eqn:Hv; simpl in *; [|done].
  destruct v; try done. simpl. by apply IH.
Qed.

Lemma get_erase_ne t key key' :
  key <> key' -> get (erase t key) key' = get t key'.
Proof.
  intros Hne. induction t as [|[k v] t IH]; simpl; [done|].
  destruct (String.eqb_spec k key) as [->|Hk]; simpl.
  - destruct (String.eqb_spec key key'); [done|]. exact IH.
  - destruct (String.eqb_spec k key'); [done|]. exact IH.
Qed.

Lemma get_erase_eq t key : get (erase t key) key = None.
Proof.
  induction t as [|[k v] t IH]; simpl; [done|].
  destruct (String.eqb_spec k key) as [->|Hk]; simpl; [done|].
  by destruct (String.eqb_spec k key).
Qed.

Lemma PluginManifest_ctor_phases name t :
  PluginManifest_ctor name t =
  obind (authors_of t) (fun authors =>
  obind (string_or t "version" "0.0.0") (fun version =>
  obind (string_or t "description" "No description provided") (fun description =>
  obind (build_of t) (fun build =>
  obind (output_of name build) (fun output =>
  obind (steps_of build) (fun steps =>
    Value {| m_sName := name;
             m_sAuthors := authors;
             m_sVersion := version;
             m_sDescription := description;
             m_pBinaryOutputPath := output;
             m_sBuildSteps := steps |})))))).
Proof.
  unfold PluginManifest_ctor, authors_of, string_or, build_of, output_of,
    steps_of.
  destruct (if contains t "authors" && _ then _ else _); [|done..].
  cbn [obind].
  destruct (if contains t "version" then _ else _); [|done..].
  cbn [obind].
  destruct (if contains t "description" then _ else _); [|done..].
  cbn [obind].
  destruct (contains t "build" && view_is_table (get t "build")); [|done].
  destruct (deref _) as [build| |]; [|done..]. cbn [obind].
  destruct (if contains build "output" && _ then _ else _); [|done..].
  cbn [obind].
  destruct (contains build "steps" && view_is_array (get build "steps"));
    [|done].
  by destruct (deref _).
Qed.

Lemma build_of_value t build :
  build_of t = Value build <-> get t "build" = Some (Table build).
Proof.
  unfold build_of, contains, view_is_table, view_as_table.
  destruct (get t "build") as [[]|]; simpl; split; intros; by simplify_eq.
Qed.

Lemma build_of_throw t :
  view_is_table (get t "build") = false ->
  build_of t = Throw "Plugin must have a build table".
Proof.
  unfold build_of, contains, view_is_table.
  destruct (get t "build") as [[]|]; simpl; done.
Qed.

Lemma map_Str_inj ss ss' : map Str ss = map Str ss' -> ss = ss'.
Proof.
  revert ss'. induction ss as [|x ss IH]; intros [|y ss'] H; simplify_eq/=;
    f_equal; eauto.
Qed.

Lemma steps_of_value build steps :
  steps_of build = Value steps <-> get build "steps" = Some (Array (map Str steps)).
Proof.
  unfold steps_of, contains, view_is_array, view_as_array.
  destruct (get build "steps") as [[| | |arr|]|]; simpl; split; intros H;
    try by simplify_eq.
  - apply push_strings_value in H as (ss & -> & ->). done.
  - simplify_eq.
    destruct (push_strings_all "Build step must be a string"
                (map Str steps) []) as (ss & Hss & ->).
    + unfold all_strings. by induction steps.
    + simpl. by rewrite (map_Str_inj _ _ Hss).
Qed.

Lemma steps_of_throw build :
  match get build "steps" with
  | Some (Array steps) => negb (all_strings steps)
  | _ => true
  end = true ->
  is_throw (steps_of build) = true.
Proof.
  unfold steps_of, contains, view_is_array, view_as_array.
  destruct (get build "steps") as [[| | |arr|]|]; simpl; try done.
  intros H%negb_true_iff. by rewrite (push_strings_throw _ arr [] H).
Qed.

Lemma string_or_cases t key default :
  string_or t key default =
  match get t key with
  | None => Value default
  | Some (Str s) => Value s
  | Some _ => Undefined
  end.
Proof.
  unfold string_or, contains, view_as_string.
  by destruct (get t key) as [[]|].
Qed.

Lemma output_of_value name build : is_value (output_of name build) = true.
Proof.
  unfold output_of, contains, view_is_string, view_as_string.
  by destruct (get build "output") as [[]|].
Qed.

Lemma authors_of_cases t :
  authors_of t =
  match get t "authors" with
  | Some (Array authors) => push_strings "Author must be a string" authors []
  | _ =>
      match get t "author" with
      | None => Value []
      | Some (Str a) => Value [a]
      | Some _ => Undefined
      end
  end.
Proof.
  unfold authors_of, contains, view_is_array, view_as_array, view_as_string.
  destruct (get t "authors") as [[]|]; simpl; try done.
  all: by destruct (get t "author") as [[]|].
Qed.

Ltac obind_cases H :=
  repeat match type of H with
         | obind ?o _ = Value _ =>
             let E := fresh "E" in
             destruct o eqn:E; cbn [obind] in H; [|discriminate H..]
         end.

(** C5 (as the code has it).  A manifest that was constructed holds in
    [buildSteps] exactly the strings of the array [build.steps], in order:
    the array had to be present, its length is not looked at. *)
Theorem buildSteps_are_the_steps_array name t m :
  PluginManifest_ctor name t = Value m ->
  exists build arr,
    get t "build" = Some (Table build) /\
    get build "steps" = Some (Array arr) /\
    arr = map Str (getBuildSteps m) /\
    (getBuildSteps m = [] <-> arr = []).
Proof.
  rewrite PluginManifest_ctor_phases. intros H. obind_cases H.
  simplify_eq. simpl.
  match goal with Hb : build_of _ = _ |- _ => apply build_of_value in Hb end.
  match goal with Hs : steps_of _ = _ |- _ => apply steps_of_value in Hs end.
  eexists _, _. repeat split; try eassumption.
  - by intros ->.
  - intros Hnil. by eapply map_eq_nil.
Qed.

Lemma buildSteps_are_the_steps_array_witness :
  exists build arr,
    get Sample.widget_table "build" = Some (Table build) /\
    get build "steps" = Some (Array arr) /\
    arr = map Str (getBuildSteps Sample.widget_manifest) /\
    (getBuildSteps Sample.widget_manifest = [] <-> arr = []).
Proof.
  apply (buildSteps_are_the_steps_array "widget" Sample.widget_table
           Sample.widget_manifest).
  reflexivity.
Defined.

(** A build table without a string [output] gives the artifact the name of
    the plugin. *)
Lemma ctor_default_output name t m build :
  PluginManifest_ctor name t = Value m ->
  get t "build" = Some (Table build) ->
  view_is_string (get build "output") = false ->
  getBinaryOutputPath m = name +:+ ".so".
Proof.
  rewrite PluginManifest_ctor_phases. intros H Hb Hout. obind_cases H.
  simplify_eq. simpl.
  match goal with Hb' : build_of _ = _ |- _ =>
    apply build_of_value in Hb'; rewrite Hb in Hb'; simplify_eq end.
  match goal with Ho : output_of _ _ = _ |- _ =>
    unfold output_of in Ho; rewrite Hout, andb_false_r in Ho; by simplify_eq end.
Qed.

(** C5, counterexample: the empty array of steps is accepted, and the
    manifest constructed from it has no build step. *)
Lemma empty_steps_are_accepted :
  exists m,
    PluginManifest_ctor "widget" [("build", Table [("steps", Array [])])]
    = Value m /\ getBuildSteps m = [].
Proof. eexists. split; reflexivity. Qed.

(** The exception of the authors loop comes from the authors loop only. *)
Lemma ctor_author_throw name t :
  authors_of t <> Throw "Author must be a string" ->
  PluginManifest_ctor name t <> Throw "Author must be a string".
Proof.
  intros Ha. rewrite PluginManifest_ctor_phases.
  destruct (authors_of t) as [authors| |]; cbn [obind];
    [|by intros [= ->]|done].
  rewrite !string_or_cases.
  destruct (get t "version") as [[]|]; cbn [obind]; try done.
  all: destruct (get t "description") as [[]|]; cbn [obind]; try done.
  all: unfold build_of, contains, view_is_table, view_as_table.
  all: destruct (get t "build") as [[| | | |build]|]; try done; simpl.
  all: pose proof (output_of_value name build) as Ho.
  all: destruct (output_of name build); cbn [obind]; try done.
  all: unfold steps_of, contains, view_is_array, view_as_array.
  all: destruct (get build "steps") as [[| | |steps|]|]; try done; simpl.
  all: destruct (all_strings steps) eqn:Hall.
  all: try (destruct (push_strings_all "Build step must be a string" steps []
                        Hall) as (ss & _ & ->); done).
  all: by rewrite (push_strings_throw _ steps [] Hall).
Qed.

(** C10.  An [authors] field that is not an array is not looked at: the
    constructor does what it does on the table without that field, and
    never throws the exception of the authors loop.  The authors of a
    manifest that was constructed are the scalar [author] when there is
    one, none otherwise; and such a manifest is constructed whenever the
    scalar fields that are read are strings and the [build] table and its
    steps are as they must be. *)
Theorem non_array_authors_ignored name t v :
  get t "authors" = Some v ->
  is_array v = false ->
  PluginManifest_ctor name t = PluginManifest_ctor name (erase t "authors") /\
  (forall m, PluginManifest_ctor name t = Value m ->
    (get t "author" = None /\ getAuthors m = []) \/
    (exists a, get t "author" = Some (Str a) /\ getAuthors m = [a])) /\
  PluginManifest_ctor name t <> Throw "Author must be a string" /\
  (scalars_ok t = true -> must_be_rejected t = false ->
   exists m,
     PluginManifest_ctor name t = Value m /\
     getAuthors m
     = match get t "author" with Some (Str a) => [a] | _ => [] end).
Proof.
  intros Hv Hna.
  assert (authors_of t =
          match get t "author" with
          | None => Value []
          | Some (Str a) => Value [a]
          | Some _ => Undefined
          end) as Hauthors.
  { rewrite authors_of_cases, Hv. by destruct v. }
  split; [|split; [|split]].
  - assert (authors_of (erase t "authors") = authors_of t) as Ha.
    { rewrite Hauthors, authors_of_cases, get_erase_eq.
      by rewrite get_erase_ne. }
    assert (forall key default, "authors" <> key ->
              string_or (erase t "authors") key default
              = string_or t key default) as Hs.
    { intros key default Hne. rewrite !string_or_cases.
      by rewrite get_erase_ne. }
    assert (build_of (erase t "authors") = build_of t) as Hb.
    { unfold build_of, contains. by rewrite get_erase_ne. }
    rewrite !PluginManifest_ctor_phases. rewrite Ha, !Hs, Hb by done.
    reflexivity.
  - intros m. rewrite PluginManifest_ctor_phases. intros H. obind_cases H.
    simplify_eq. simpl.
    match goal with Ha : authors_of _ = _ |- _ => rewrite Hauthors in Ha end.
    destruct (get t "author") as [[author| | | |]|]; simplify_eq; eauto.
  - apply ctor_author_throw. rewrite Hauthors.
    by destruct (get t "author") as [[]|].
  - unfold scalars_ok, must_be_rejected, view_is_array. rewrite Hv.
    replace (from_option is_array false (Some v)) with false
      by (by destruct v).
    replace (match v with Array authors => negb (all_strings authors)
                     | _ => false end) with false by (by destruct v).
    cbn [orb]. intros Hok Hrej.
    apply andb_true_iff in Hok as [Hok Hd].
    apply andb_true_iff in Hok as [Ha Hver].
    rewrite PluginManifest_ctor_phases, Hauthors, !string_or_cases.
    destruct (get t "build") as [[| | | |build]|] eqn:Hb; try done.
    apply build_of_value in Hb. rewrite Hb.
    pose proof (output_of_value name build) as Ho.
    destruct (output_of name build) as [output| |] eqn:Hout; try done.
    destruct (get build "steps") as [[| | |steps|]|] eqn:Hs; try done.
    apply negb_false_iff in Hrej.
    assert (exists ss, steps_of build = Value ss) as [ss Hsteps].
    { unfold steps_of, contains, view_is_array, view_as_array. rewrite Hs.
      simpl.
      destruct (push_strings_all "Build step must be a string" steps []
                  Hrej) as (ss & _ & ->). eauto. }
    destruct (get t "author") as [[author| | | |]|]; simpl in Ha; try done;
      cbn [obind].
    all: destruct (get t "version") as [[version| | | |]|]; simpl in Hver;
      try done; cbn [obind].
    all: destruct (get t "description") as [[description| | | |]|];
      simpl in Hd; try done; cbn [obind].
    all: rewrite Hout; cbn [obind]; rewrite Hsteps; cbn [obind].
    all: eexists; split; reflexivity.
Qed.

Lemma non_array_authors_ignored_witness :
  (PluginManifest_ctor "widget" Sample.scalar_authors_table
   = PluginManifest_ctor "widget" (erase Sample.scalar_authors_table "authors")
   /\ exists m,
        PluginManifest_ctor "widget" Sample.scalar_authors_table = Value m /\
        getAuthors m = ["ann"]) /\
  (PluginManifest_ctor "widget" Sample.string_authors_table
   <> Throw "Author must be a string"
   /\ exists m,
        PluginManifest_ctor "widget" Sample.string_authors_table = Value m /\
        getAuthors m = []).
Proof.
  split.
  - destruct (non_array_authors_ignored "widget" Sample.scalar_authors_table
                (Integer 7) eq_refl eq_refl) as (Hsame & _ & _ & Hbuilt).
    split; [exact Hsame|]. exact (Hbuilt eq_refl eq_refl).
  - destruct (non_array_authors_ignored "widget" Sample.string_authors_table
                (Str "ann, bob") eq_refl eq_refl) as (_ & _ & Hquiet & Hbuilt).
    split; [exact Hquiet|]. exact (Hbuilt eq_refl eq_refl).
Defined.

(** What the constructor promises once the scalar fields it reads are
    strings: a missing or ill-typed [build], a missing or ill-typed
    [build.steps], a step or an author that is not a string all end in
    an exception. *)
Lemma ctor_rejects_when_scalars_ok name t :
  scalars_ok t = true -> must_be_rejected t = true ->
  is_throw (PluginManifest_ctor name t) = true.
Proof.
  unfold scalars_ok, must_be_rejected, scalar_ok, view_is_array.
  intros Hok Hrej. rewrite PluginManifest_ctor_phases.
  rewrite authors_of_cases, !string_or_cases.
  assert (exists version, match get t "version" with
                          | None => Value "0.0.0"
                          | Some (Str s) => Value s
                          | Some _ => Undefined
                          end = Value version) as [version ->].
  { destruct (get t "version") as [[]|]; simpl in *; eauto;
      by rewrite ?andb_false_r in Hok. }
  assert (exists description, match get t "description" with
                          | None => Value "No description provided"
                          | Some (Str s) => Value s
                          | Some _ => Undefined
                          end = Value description) as [description ->].
  { destruct (get t "description") as [[]|]; simpl in *; eauto;
      by rewrite ?andb_false_r in Hok. }
  assert (is_throw (obind (build_of t) (fun build =>
            obind (output_of name build) (fun output =>
            obind (steps_of build) (fun steps =>
              Value {| m_sName := name; m_sAuthors := [];
                       m_sVersion := version; m_sDescription := description;
                       m_pBinaryOutputPath := output;
                       m_sBuildSteps := steps |})))) = true
          \/ exists authors, get t "authors" = Some (Array authors)
                             /\ all_strings authors = false) as Hcases.
  { destruct (get t "authors") as [[| | |authors|]|] eqn:Hau; simpl in Hrej.
    4: destruct (all_strings authors) eqn:Hall; [|right; eauto].
    all: left; simpl in Hrej.
    all: destruct (get t "build") as [[| | | |build]|] eqn:Hb;
      try (rewrite build_of_throw by (by rewrite Hb); done).
    all: apply build_of_value in Hb; rewrite Hb; cbn [obind].
    all: pose proof (output_of_value name build) as Hout.
    all: destruct (output_of name build); try done; cbn [obind].
    all: pose proof (steps_of_throw build Hrej) as Hst.
    all: by destruct (steps_of build). }
  destruct Hcases as [Hbuild|(authors & Hau & Hall)].
  - destruct (get t "authors") as [[| | |authors|]|] eqn:Hau.
    4: { destruct (push_strings "Author must be a string" authors [])
           eqn:Hp; cbn [obind]; try done.
         - revert Hbuild. clear. destruct (build_of t); cbn [obind]; try done.
           destruct (output_of name a0); cbn [obind]; try done.
           by destruct (steps_of a0).
         - exfalso. clear -Hp. revert Hp. generalize (@nil string).
           induction authors as [|v authors IH]; intros acc; simpl; [done|].
           destruct v; simpl; try done. apply IH. }
    all: simpl in Hok.
    all: destruct (get t "author") as [[]|]; simpl in Hok; try done;
      cbn [obind].
    all: revert Hbuild; clear; destruct (build_of t); cbn [obind]; try done.
    all: destruct (output_of name a); cbn [obind]; try done.
    all: by destruct (steps_of a).
  - rewrite Hau. by rewrite (push_strings_throw _ authors [] Hall).
Qed.

(** An author that is not a string is rejected before anything else is
    read. *)
Lemma ctor_rejects_bad_author name t authors :
  get t "authors" = Some (Array authors) -> all_strings authors = false ->
  PluginManifest_ctor name t = Throw "Author must be a string".
Proof.
  intros Hau Hall. rewrite PluginManifest_ctor_phases, authors_of_cases, Hau.
  by rewrite (push_strings_throw _ authors [] Hall).
Qed.

(** C4, at the failing input: a version that is not a string is
    dereferenced as one before the missing [build] table is looked for. *)
Theorem missing_build_after_bad_version :
  must_be_rejected Sample.bad_version_no_build = true /\
  PluginManifest_ctor "widget" Sample.bad_version_no_build = Undefined.
Proof. split; reflexivity. Qed.

(** C6, at the failing input: with a version that is not a string neither
    constructor yields a manifest or an exception. *)
Theorem bad_version_is_undefined :
  PluginManifest_ctor "widget" Sample.bad_version_table = Undefined /\
  HyprloadManifest_ctor [("widget", Table Sample.bad_version_table)] = Undefined.
Proof. split; reflexivity. Qed.

End ManifestFacts.

(** ** Commands *)

Arguments Path.append : simpl never.
Arguments Path.filename : simpl never.
Arguments Str.find : simpl never.

Section WorldFacts.

Context (E : Env).

Lemma bind_value {A B} (m : Cmd (state E) A) (f : A -> Cmd (state E) B)
    s a s1 t1 :
  m s = (Value a, s1, t1) ->
  bind m f s = (result_of (f a s1), state_of (f a s1), t1 ++ trace_of (f a s1)).
Proof.
  unfold bind, result_of, state_of, trace_of. intros ->.
  by destruct (f a s1) as [[r s2] t2].
Qed.

Lemma bind_throw {A B} (m : Cmd (state E) A) (f : A -> Cmd (state E) B)
    s what s1 t1 :
  m s = (Throw what, s1, t1) -> bind m f s = (Throw what, s1, t1).
Proof. unfold bind. by intros ->. Qed.

Lemma bind_undefined {A B} (m : Cmd (state E) A) (f : A -> Cmd (state E) B)
    s s1 t1 :
  m s = (Undefined, s1, t1) -> bind m f s = (Undefined, s1, t1).
Proof. unfold bind. by intros ->. Qed.

Lemma exists_run p s answer :
  fs_exists E p s = Some answer ->
  exists_ E p s = (Value answer, s, [EvExists p]).
Proof. unfold exists_. by intros ->. Qed.

Lemma exists_throws p s :
  fs_exists E p s = None ->
  exists_ E p s = (Throw "filesystem error: cannot stat", s, [EvExists p]).
Proof. unfold exists_. by intros ->. Qed.

(** *** Publishing *)

Lemma publish_missing p m s :
  fs_exists E (outputBinary_of p m) s = Some false ->
  publish E p m s
  = (Value (err "Plugin binary does not exist"), s,
     [EvExists (outputBinary_of p m)]).
Proof.
  intros H. unfold publish. fold (outputBinary_of p m).
  rewrite (bind_value _ _ _ _ _ _ (exists_run _ s _ H)). reflexivity.
Qed.

Lemma publish_copied p m s stale s3 s4 :
  let out := outputBinary_of p m in
  let tgt := targetPath_of E p m in
  fs_exists E out s = Some true ->
  fs_exists E tgt s = Some stale ->
  (if stale then fs_remove E tgt s else Some s) = Some s3 ->
  fs_copy E out tgt s3 = Some s4 ->
  publish E p m s
  = (Value (ok tt), s4,
     [EvExists out; EvExists tgt]
       ++ (if stale then [EvRemove tgt] else [])
       ++ [EvCopy out tgt]).
Proof.
  intros out tgt Hout Hstale Hrm Hcp. unfold publish.
  fold (outputBinary_of p m). fold (targetPath_of E p m). fold out. fold tgt.
  rewrite (bind_value _ _ _ _ _ _ (exists_run out s _ Hout)). cbn [negb].
  rewrite (bind_value _ _ _ _ _ _ (exists_run tgt s _ Hstale)).
  unfold bind, remove_, copy_, ret.
  destruct stale; simplify_eq; rewrite ?Hrm, Hcp; reflexivity.
Qed.

(** A publication that succeeded ended in the copy of the artifact to
    the binaries directory, under the artifact's own filename. *)
Lemma publish_ok_inv p m s s' t :
  publish E p m s = (Value (ok tt), s', t) ->
  exists pre, t = pre ++ [EvCopy (outputBinary_of p m) (targetPath_of E p m)].
Proof.
  unfold publish. fold (outputBinary_of p m). fold (targetPath_of E p m).
  set (out := outputBinary_of p m). set (tgt := targetPath_of E p m).
  destruct (fs_exists E out s) as [[]|] eqn:Hout.
  2: { by rewrite (bind_value _ _ _ _ _ _ (exists_run out s _ Hout)). }
  2: { by rewrite (bind_throw _ _ _ _ _ _ (exists_throws out s Hout)). }
  rewrite (bind_value _ _ _ _ _ _ (exists_run out s _ Hout)). cbn [negb].
  destruct (fs_exists E tgt s) as [stale|] eqn:Hstale.
  2: { by rewrite (bind_throw _ _ _ _ _ _ (exists_throws tgt s Hstale)). }
  rewrite (bind_value _ _ _ _ _ _ (exists_run tgt s _ Hstale)).
  unfold bind, remove_, copy_, ret, result_of, state_of, trace_of.
  destruct stale.
  - destruct (fs_remove E tgt s) as [s3|]; [|done].
    destruct (fs_copy E out tgt s3) as [s4|]; [|done].
    intros [= <- <-]. by exists [EvExists out; EvExists tgt; EvRemove tgt].
  - destruct (fs_copy E out tgt s) as [s4|]; [|done].
    intros [= <- <-]. by exists [EvExists out; EvExists tgt].
Qed.

(** With the default artifact name of a plugin whose name has no separator
    the target is [<name>.so]. *)
Lemma target_of_default_output p m name :
  getBinaryOutputPath m = name +:+ ".so" ->
  Str.has_slash name = false ->
  targetPath_of E p m = getPluginBinariesPath E // (name +:+ ".so").
Proof.
  intros Hout Hname. unfold targetPath_of, outputBinary_of.
  rewrite filename_append, Hout, filename_plain; [done|].
  rewrite has_slash_app, Hname. reflexivity.
Qed.

(** *** The two installs share their tail *)

Lemma git_install_present g name s :
  fs_exists E (git_pSourcePath g // ".git") s = Some true ->
  GitPluginSource_install E g name s
  = (result_of (install_present E (git_pSourcePath g) name s),
     state_of (install_present E (git_pSourcePath g) name s),
     EvExists (git_pSourcePath g // ".git")
       :: trace_of (install_present E (git_pSourcePath g) name s)).
Proof.
  intros H. unfold GitPluginSource_install, GitPluginSource_isSourceAvailable.
  rewrite (bind_value _ _ _ _ _ _ (exists_run _ s _ H)). reflexivity.
Qed.

Lemma local_install_present l name s :
  fs_exists E (local_pSourcePath l) s = Some true ->
  LocalPluginSource_install E l name s
  = (result_of (install_present E (local_pSourcePath l) name s),
     state_of (install_present E (local_pSourcePath l) name s),
     EvExists (local_pSourcePath l)
       :: trace_of (install_present E (local_pSourcePath l) name s)).
Proof.
  intros H. unfold LocalPluginSource_install, LocalPluginSource_isSourceAvailable.
  rewrite (bind_value _ _ _ _ _ _ (exists_run _ s _ H)). reflexivity.
Qed.

Lemma install_present_of_source src name s :
  fs_exists E (presence_marker src) s = Some true ->
  install E src name s
  = (result_of (install_present E (sourcePath src) name s),
     state_of (install_present E (sourcePath src) name s),
     EvExists (presence_marker src)
       :: trace_of (install_present E (sourcePath src) name s)).
Proof.
  destruct src as [g|l]; [apply git_install_present|apply local_install_present].
Qed.

Lemma install_present_build_failed p name s rb s1 tb :
  buildPlugin E p name s = (rb, s1, tb) ->
  rb <> Value (ok tt) ->
  install_present E p name s = (rb, s1, tb).
Proof.
  intros Hb Hrb. unfold install_present.
  destruct rb as [[[]|e]| |]; try done.
  - rewrite (bind_value _ _ _ _ _ _ Hb). cbn. by rewrite app_nil_r.
  - by rewrite (bind_throw _ _ _ _ _ _ Hb).
  - by rewrite (bind_undefined _ _ _ _ _ Hb).
Qed.

Lemma install_present_manifest_error p name s s1 tb e s2 tm :
  buildPlugin E p name s = (Value (ok tt), s1, tb) ->
  getPluginManifest E p name s1 = (Value (err e), s2, tm) ->
  install_present E p name s = (Value (err e), s2, tb ++ tm).
Proof.
  intros Hb Hm. unfold install_present.
  rewrite (bind_value _ _ _ _ _ _ Hb). cbn [isErr].
  rewrite (bind_value _ _ _ _ _ _ Hm). cbn. by rewrite app_nil_r.
Qed.

Lemma install_present_publish p name s s1 tb m s2 tm :
  buildPlugin E p name s = (Value (ok tt), s1, tb) ->
  getPluginManifest E p name s1 = (Value (ok m), s2, tm) ->
  install_present E p name s
  = (result_of (publish E p m s2), state_of (publish E p m s2),
     tb ++ tm ++ trace_of (publish E p m s2)).
Proof.
  intros Hb Hm. unfold install_present.
  rewrite (bind_value _ _ _ _ _ _ Hb). cbn [isErr].
  rewrite (bind_value _ _ _ _ _ _ Hm). reflexivity.
Qed.

(** An [install_present] that succeeded built, loaded the manifest and
    published. *)
Lemma install_present_ok_inv p name s s' t :
  install_present E p name s = (Value (ok tt), s', t) ->
  exists s1 tb m s2 tm tp,
    buildPlugin E p name s = (Value (ok tt), s1, tb) /\
    getPluginManifest E p name s1 = (Value (ok m), s2, tm) /\
    publish E p m s2 = (Value (ok tt), s', tp) /\
    t = tb ++ tm ++ tp.
Proof.
  destruct (buildPlugin E p name s) as [[rb s1] tb] eqn:Hb.
  destruct rb as [[[]|e]| |].
  2-4: by rewrite (install_present_build_failed _ _ _ _ _ _ Hb).
  destruct (getPluginManifest E p name s1) as [[rm s2] tm] eqn:Hm.
  destruct rm as [[m|e]| |].
  - rewrite (install_present_publish _ _ _ _ _ _ _ _ Hb Hm).
    destruct (publish E p m s2) as [[rp sp] tp] eqn:Hp.
    cbn. intros [= -> -> <-]. by exists s1, tb, m, s2, tm, tp.
  - rewrite (install_present_manifest_error _ _ _ _ _ _ _ _ Hb Hm). done.
  - unfold install_present. rewrite (bind_value _ _ _ _ _ _ Hb). cbn [isErr].
    by rewrite (bind_throw _ _ _ _ _ _ Hm).
  - unfold install_present. rewrite (bind_value _ _ _ _ _ _ Hb). cbn [isErr].
    by rewrite (bind_undefined _ _ _ _ _ Hm).
Qed.

(** *** Loading a manifest only looks *)

Lemma find_plugin_name name plugins m :
  find_plugin name plugins = Some m -> getName m = name.
Proof.
  induction plugins as [|plugin rest IH]; simpl; [done|].
  destruct (String.eqb_spec (getName plugin) name); [|done].
  by intros [= <-].
Qed.

Lemma getHyprlandManifest_looks p s :
  let mp := p // "hyprload.toml" in
  state_of (getHyprlandManifest E p s) = s /\
  (trace_of (getHyprlandManifest E p s) = [EvExists mp] \/
   trace_of (getHyprlandManifest E p s) = [EvExists mp; EvParse mp]).
Proof.
  intros mp. unfold getHyprlandManifest. fold mp.
  destruct (fs_exists E mp s) as [[]|] eqn:Hex.
  2: { rewrite (bind_value _ _ _ _ _ _ (exists_run mp s _ Hex)).
       by split; [|left]. }
  2: { rewrite (bind_throw _ _ _ _ _ _ (exists_throws mp s Hex)).
       by split; [|left]. }
  rewrite (bind_value _ _ _ _ _ _ (exists_run mp s _ Hex)). cbn [negb].
  unfold bind, parse_, lift, ret, result_of, state_of, trace_of.
  destruct (toml_parse E mp s) as [what|manifest]; cbn; [by split; [|right]|].
  destruct (HyprloadManifest_ctor manifest); cbn; by split; [|right].
Qed.

Lemma getPluginManifest_looks p name s :
  let mp := p // "hyprload.toml" in
  state_of (getPluginManifest E p name s) = s /\
  (trace_of (getPluginManifest E p name s) = [EvExists mp] \/
   trace_of (getPluginManifest E p name s) = [EvExists mp; EvParse mp]).
Proof.
  intros mp. destruct (getHyprlandManifest_looks p s) as [Hs Ht].
  fold mp in Ht. unfold getPluginManifest.
  destruct (getHyprlandManifest E p s) as [[r s1] t1] eqn:Hh.
  cbn in Hs, Ht. subst s1.
  destruct r as [[hm|e]| |].
  - rewrite (bind_value _ _ _ _ _ _ Hh).
    destruct (find_plugin name (getPlugins hm)); cbn; rewrite app_nil_r; done.
  - rewrite (bind_value _ _ _ _ _ _ Hh). cbn. rewrite app_nil_r; done.
  - by rewrite (bind_throw _ _ _ _ _ _ Hh).
  - by rewrite (bind_undefined _ _ _ _ _ Hh).
Qed.

Lemma getPluginManifest_name p name s m s' t :
  getPluginManifest E p name s = (Value (ok m), s', t) -> getName m = name.
Proof.
  unfold getPluginManifest.
  destruct (getHyprlandManifest E p s) as [[r s1] t1] eqn:Hh.
  destruct r as [[hm|e]| |].
  - rewrite (bind_value _ _ _ _ _ _ Hh).
    destruct (find_plugin name (getPlugins hm)) as [m'|] eqn:Hf; cbn; [|done].
    intros [= <- _ _]. by eapply find_plugin_name.
  - by rewrite (bind_value _ _ _ _ _ _ Hh).
  - by rewrite (bind_throw _ _ _ _ _ _ Hh).
  - by rewrite (bind_undefined _ _ _ _ _ Hh).
Qed.

Lemma headers_run s :
  headers_path E s = (Value (getHyprlandHeadersPath E s), s, [EvHeaders]).
Proof. reflexivity. Qed.

(** C8 (as the code has it).  Without headers [buildPlugin] runs no
    command: it looks the headers up, loads the manifest, and only then
    reports the missing headers, so that a manifest that does not load is
    reported instead. *)
Theorem buildPlugin_without_headers p name s :
  getHyprlandHeadersPath E s = None ->
  let mp := p // "hyprload.toml" in
  let loaded := getPluginManifest E p name s in
  (trace_of loaded = [EvExists mp] \/ trace_of loaded = [EvExists mp; EvParse mp]) /\
  buildPlugin E p name s
  = (match result_of loaded with
     | Value (ok _) => Value (err headers_error)
     | Value (err e) => Value (err e)
     | Throw what => Throw what
     | Undefined => Undefined
     end, s, EvHeaders :: trace_of loaded).
Proof.
  intros Hnone mp loaded.
  destruct (getPluginManifest_looks p name s) as [Hs Ht]. fold mp in Ht.
  fold loaded in Hs, Ht. split; [exact Ht|]. clear Ht.
  unfold buildPlugin. rewrite (bind_value _ _ _ _ _ _ (headers_run s)), Hnone.
  fold loaded. destruct loaded as [[rm s1] tm] eqn:Hm. cbn in Hs. subst s1.
  unfold loaded in Hm. cbn [result_of trace_of fst snd].
  destruct rm as [[m|e]| |].
  - rewrite (bind_value _ _ _ _ _ _ Hm). cbn. by rewrite app_nil_r.
  - rewrite (bind_value _ _ _ _ _ _ Hm). cbn. by rewrite app_nil_r.
  - by rewrite (bind_throw _ _ _ _ _ _ Hm).
  - by rewrite (bind_undefined _ _ _ _ _ Hm).
Qed.

(** *** Installing *)

(** C2.  [install] on a Git source whose tree has no [.git] only clones and
    returns what the clone returned, without a build; on a tree that has
    one it builds, then loads the plugin manifest, then reports a missing
    artifact, then removes what is at the target path and copies the
    artifact there. *)
Theorem git_install_clones_or_publishes (g : GitPluginSource) (name : string)
    (s : state E) :
  let dotgit := git_pSourcePath g // ".git" in
  (fs_exists E dotgit s = Some false ->
     trace_of (GitPluginSource_installSource E g s)
     = [EvSystem (clone_command g)] /\
     GitPluginSource_install E g name s
     = (result_of (GitPluginSource_installSource E g s),
        state_of (GitPluginSource_installSource E g s),
        [EvExists dotgit; EvSystem (clone_command g)])) /\
  (fs_exists E dotgit s = Some true ->
     forall rb s1 tb,
       GitPluginSource_build E g name s = (rb, s1, tb) ->
       (rb <> Value (ok tt) ->
          GitPluginSource_install E g name s = (rb, s1, EvExists dotgit :: tb)) /\
       (rb = Value (ok tt) ->
          forall rm s2 tm,
            getPluginManifest E (git_pSourcePath g) name s1 = (rm, s2, tm) ->
            (forall e, rm = Value (err e) ->
               GitPluginSource_install E g name s
               = (Value (err e), s2, EvExists dotgit :: tb ++ tm)) /\
            (forall m, rm = Value (ok m) ->
               let out := outputBinary_of (git_pSourcePath g) m in
               let tgt := targetPath_of E (git_pSourcePath g) m in
               (fs_exists E out s2 = Some false ->
                  GitPluginSource_install E g name s
                  = (Value (err "Plugin binary does not exist"), s2,
                     EvExists dotgit :: tb ++ tm ++ [EvExists out])) /\
               (fs_exists E out s2 = Some true ->
                  forall stale s3 s4,
                    fs_exists E tgt s2 = Some stale ->
                    (if stale then fs_remove E tgt s2 else Some s2) = Some s3 ->
                    fs_copy E out tgt s3 = Some s4 ->
                    GitPluginSource_install E g name s
                    = (Value (ok tt), s4,
                       EvExists dotgit :: tb ++ tm
                         ++ [EvExists out; EvExists tgt]
                         ++ (if stale then [EvRemove tgt] else [])
                         ++ [EvCopy out tgt]))))).
Proof.
  intros dotgit. split.
  - intros Habsent. unfold GitPluginSource_install,
      GitPluginSource_isSourceAvailable, GitPluginSource_installSource.
    fold dotgit. fold (clone_command g).
    rewrite (bind_value _ _ _ _ _ _ (exists_run dotgit s _ Habsent)).
    cbn [negb].
    unfold bind, system_.
    destruct (std_system E (clone_command g) s) as [status s'].
    cbn. destruct (negb (status =? 0)); cbn; done.
  - intros Hpresent rb s1 tb Hbuild.
    rewrite (git_install_present g name s Hpresent). fold dotgit.
    unfold GitPluginSource_build in Hbuild. split.
    + intros Hrb.
      by rewrite (install_present_build_failed _ _ _ _ _ _ Hbuild Hrb).
    + intros -> rm s2 tm Hm. split.
      * intros e ->.
        by rewrite (install_present_manifest_error _ _ _ _ _ _ _ _ Hbuild Hm).
      * intros m -> out tgt.
        rewrite (install_present_publish _ _ _ _ _ _ _ _ Hbuild Hm). split.
        -- intros Hout. by rewrite (publish_missing _ _ _ Hout).
        -- intros Hout stale s3 s4 Hstale Hrm Hcp.
           by rewrite (publish_copied _ _ _ _ _ _ Hout Hstale Hrm Hcp).
Qed.

(** C1 (as the code has it).  An [install] that found its source and
    succeeded ended in the copy of the artifact the manifest declares to
    the binaries directory under the filename of that declared artifact;
    the name asked for only selects the manifest. *)
Theorem install_publishes_declared_filename (src : PluginSource)
    (name : string) (s s' : state E) (t : list Event) :
  fs_exists E (presence_marker src) s = Some true ->
  install E src name s = (Value (ok tt), s', t) ->
  exists m s1 s2 tm pre,
    getPluginManifest E (sourcePath src) name s1 = (Value (ok m), s2, tm) /\
    getName m = name /\
    t = pre ++ [EvCopy (sourcePath src // getBinaryOutputPath m)
                       (getPluginBinariesPath E
                          // Path.filename (getBinaryOutputPath m))].
Proof.
  intros Hpresent. rewrite (install_present_of_source src name s Hpresent).
  destruct (install_present E (sourcePath src) name s) as [[r sp] tp] eqn:Hip.
  cbn. intros [= -> -> <-].
  apply install_present_ok_inv in Hip
    as (s1 & tb & m & s2 & tm & tq & Hb & Hm & Hp & ->).
  apply publish_ok_inv in Hp as [pre ->].
  exists m, s1, s2, tm, (EvExists (presence_marker src) :: tb ++ tm ++ pre).
  split; [exact Hm|]. split; [by eapply getPluginManifest_name|].
  unfold targetPath_of, outputBinary_of. rewrite filename_append.
  cbn. by rewrite <- !app_assoc.
Qed.

(** C3.  The Git variant answers true only after a fetch that returned 0
    and a status output without "ahead"; the Local variant answers false
    and does nothing. *)
Theorem isUpToDate_true_only_when_fetched (g : GitPluginSource)
    (l : LocalPluginSource) :
  (forall s s' t,
     GitPluginSource_isUpToDate E g s = (Value true, s', t) ->
     exists s1 exit output,
       std_system E (fetch_command g) s = (0, s1) /\
       executeCommand E (status_command g) s1
       = (Value (exit, output), s', [EvPopen (status_command g)]) /\
       Str.find output "ahead" = Str.npos) /\
  (forall s, LocalPluginSource_isUpToDate E l s = (Value false, s, [])).
Proof.
  split; [|done]. intros s s' t.
  unfold GitPluginSource_isUpToDate. fold (fetch_command g).
  fold (status_command g). unfold bind at 1. unfold system_.
  destruct (std_system E (fetch_command g) s) as [status s1].
  destruct (Z.eqb_spec status 0) as [->|Hne]; cbn [negb]; [|done].
  unfold bind.
  destruct (executeCommand E (status_command g) s1) as [[r s2] t2] eqn:Hx.
  assert (t2 = [EvPopen (status_command g)]) as ->.
  { revert Hx. unfold executeCommand.
    destruct (popen_run E (status_command g) s1) as [[[? ?] ?]|];
      by intros [= _ _ <-]. }
  destruct r as [[exit output]| |]; [|done..].
  cbn. intros [= Hres <- _]. apply andb_true_iff in Hres as [_ Hfind].
  exists s1, exit, output. split; [done|]. split; [done|].
  by apply Z.eqb_eq.
Qed.

End WorldFacts.

(** ** Sources and requirements *)

Section RequirementFacts.

Context (E : Env).

Import Toml.

Lemma GitPluginSource_ctor_total url branch :
  exists g, GitPluginSource_ctor E url branch = Value g /\ git_sBranch g = branch.
Proof.
  unfold GitPluginSource_ctor.
  destruct (after_last_slash_total
              (if Str.find url "https://" =? 0 then url
               else if Str.find url "git@" =? 0 then url
               else "https://github.com/" +:+ url +:+ ".git")) as [seg ->].
  by eexists.
Qed.

Lemma requirement_name_total plugin source :
  exists n,
    (if contains plugin "name" && view_is_string (get plugin "name")
     then deref (view_as_string (get plugin "name"))
     else match Str.after_last_slash source with
          | None => Throw "std::out_of_range"
          | Some segment => Value segment
          end) = Value n.
Proof.
  unfold contains, view_is_string, view_as_string.
  destruct (get plugin "name") as [[]|]; simpl; eauto.
  all: destruct (after_last_slash_total source) as [seg ->]; eauto.
Qed.

(** C7 (as the code has it).  A [git] field that is a string selects a Git
    source, on the branch given or on "main"; otherwise a [local] field
    that is a string selects a Local source; otherwise the constructor
    throws.  A field of another type counts as absent.  The entry
    [{git = "foo/bar"}] resolves as scenario A says. *)
Theorem requirement_source_selection (plugin : table) :
  (forall url, get plugin "git" = Some (Str url) ->
     exists r g,
       PluginRequirement_ctor E plugin = Value r /\
       req_pSource r = Git g /\
       GitPluginSource_ctor E url (branch_or_main plugin) = Value g) /\
  (view_is_string (get plugin "git") = false ->
     forall p, get plugin "local" = Some (Str p) ->
     exists r,
       PluginRequirement_ctor E plugin = Value r /\
       req_pSource r = Local (LocalPluginSource_ctor p)) /\
  (view_is_string (get plugin "git") = false ->
   view_is_string (get plugin "local") = false ->
     PluginRequirement_ctor E plugin = Throw "Plugin must have a source") /\
  PluginRequirement_ctor E [("git", Str "foo/bar")]
  = Value {| req_sName := "bar";
             req_pSource :=
               Git {| git_sUrl := "https://github.com/foo/bar.git";
                      git_sBranch := "main";
                      git_pSourcePath := getPluginsPath E // "src" // "bar.git" |};
             req_pBinaryPath := getPluginsPath E // "bin" // "bar.so" |}.
Proof.
  repeat split.
  - intros url Hgit. unfold PluginRequirement_ctor.
    destruct (GitPluginSource_ctor_total url (branch_or_main plugin))
      as (g & Hg & _).
    assert ((if contains plugin "branch" && view_is_string (get plugin "branch")
             then deref (view_as_string (get plugin "branch"))
             else Value "main") = Value (branch_or_main plugin)) as ->.
    { unfold branch_or_main, contains, view_is_string, view_as_string.
      by destruct (get plugin "branch") as [[]|]. }
    unfold contains at 1. rewrite Hgit. cbn -[Str.after_last_slash contains].
    rewrite Hg. cbn -[Str.after_last_slash contains].
    destruct (requirement_name_total plugin url) as [n ->]. cbn.
    eexists _, g. eauto.
  - intros Hgit p Hlocal. unfold PluginRequirement_ctor.
    assert (contains plugin "git" && view_is_string (get plugin "git") = false)
      as -> by (by rewrite Hgit, andb_false_r).
    unfold contains at 1. rewrite Hlocal. cbn -[Str.after_last_slash contains].
    destruct (requirement_name_total plugin p) as [n ->]. cbn.
    eexists. eauto.
  - intros Hgit Hlocal. unfold PluginRequirement_ctor.
    by rewrite Hgit, Hlocal, !andb_false_r.
Qed.

(** C9 (as the code has it).  The tree of a Git source given as
    [owner/repo] is [<plugins-dir>/src/<repo>.git]: the last segment of
    the expanded URL, which ends in [.git], while the name derived for the
    requirement is [repo]. *)
Theorem git_source_path_of_shorthand (owner repo branch : string) :
  let url := owner +:+ "/" +:+ repo in
  Str.has_slash repo = false ->
  Str.find url "https://" <> 0 ->
  Str.find url "git@" <> 0 ->
  Str.size url + 23 < Str.npos ->
  exists g,
    GitPluginSource_ctor E url branch = Value g /\
    git_sUrl g = "https://github.com/" +:+ url +:+ ".git" /\
    git_pSourcePath g = getPluginsPath E // "src" // (repo +:+ ".git") /\
    Str.after_last_slash url = Some repo.
Proof.
  intros url Hrepo Hhttps Hgit Hsize.
  assert (Str.last_segment url = repo) as Hseg.
  { unfold url. rewrite last_segment_app.
    change ("/" +:+ repo) with (String "/" repo). cbn.
    by apply last_segment_none. }
  assert (Str.has_slash url = true) as Hslash.
  { unfold url. rewrite has_slash_app.
    change ("/" +:+ repo) with (String "/" repo). cbn.
    by rewrite orb_true_r. }
  unfold GitPluginSource_ctor.
  destruct (Z.eqb_spec (Str.find url "https://") 0) as [|_]; [done|].
  destruct (Z.eqb_spec (Str.find url "git@") 0) as [|_]; [done|].
  rewrite after_last_slash_spec.
  2: { rewrite !size_app. change (Str.size "https://github.com/") with 19.
       change (Str.size ".git") with 4. lia. }
  rewrite last_segment_app, has_slash_app, Hslash. cbn [orb].
  rewrite last_segment_app. change (Str.has_slash ".git") with false.
  cbn iota. rewrite Hseg. eexists. repeat split.
  rewrite after_last_slash_spec by lia. by rewrite Hseg.
Qed.

End RequirementFacts.

(** ** The claims on the sample world *)

(** C1, counterexample: the requirement [{git = "foo/bar"}] expects its
    binary at [/p/bin/bar.so]; the manifest of [bar] declares [libbar.so];
    the install succeeds and leaves [/p/bin/libbar.so]. *)
Lemma install_keeps_declared_filename :
  exists r,
    PluginRequirement_ctor Sim.bar_env Sim.bar_requirement = Value r /\
    req_pBinaryPath r = "/p/bin/bar.so" /\
    let run := install Sim.bar_env (req_pSource r) (req_sName r) Sim.bar_cloned in
    result_of run = Value (ok tt) /\
    trace_of run
    = [EvExists "/p/src/bar.git/.git"; EvHeaders;
       EvExists "/p/src/bar.git/hyprload.toml";
       EvParse "/p/src/bar.git/hyprload.toml";
       EvPopen "export HYPRLAND_HEADERS=/usr/include/hyprland && cd /p/src/bar.git && make && cd -";
       EvExists "/p/src/bar.git/hyprload.toml";
       EvParse "/p/src/bar.git/hyprload.toml";
       EvExists "/p/src/bar.git/libbar.so";
       EvExists "/p/bin/libbar.so";
       EvCopy "/p/src/bar.git/libbar.so" "/p/bin/libbar.so"] /\
    fs_exists Sim.bar_env (req_pBinaryPath r) (state_of run) = Some false /\
    fs_exists Sim.bar_env "/p/bin/libbar.so" (state_of run) = Some true.
Proof.
  eexists. split; [reflexivity|]. split; [reflexivity|].
  repeat split; by vm_compute.
Qed.

Lemma install_publishes_declared_filename_witness :
  let run := install Sim.bar_env (Git Sim.bar_source) "bar" Sim.bar_cloned in
  exists m s1 s2 tm pre,
    getPluginManifest Sim.bar_env (sourcePath (Git Sim.bar_source)) "bar" s1
    = (Value (ok m), s2, tm) /\
    getName m = "bar" /\
    trace_of run
    = pre ++ [EvCopy (sourcePath (Git Sim.bar_source) // getBinaryOutputPath m)
                     (getPluginBinariesPath Sim.bar_env
                        // Path.filename (getBinaryOutputPath m))].
Proof.
  intros run.
  apply (install_publishes_declared_filename Sim.bar_env (Git Sim.bar_source)
           "bar" Sim.bar_cloned (state_of run) (trace_of run)).
  - vm_compute. reflexivity.
  - vm_compute. reflexivity.
Defined.

Lemma git_install_clones_or_publishes_witness :
  GitPluginSource_install Sim.bar_env Sim.bar_source "bar" []
  = (Value (ok tt), Sim.bar_cloned,
     [EvExists "/p/src/bar.git/.git";
      EvSystem "git clone https://github.com/foo/bar.git /p/src/bar.git --branch main --depth 1"]) /\
  trace_of (GitPluginSource_install Sim.bar_env Sim.bar_source "bar" Sim.bar_cloned)
  = [EvExists "/p/src/bar.git/.git"; EvHeaders;
     EvExists "/p/src/bar.git/hyprload.toml";
     EvParse "/p/src/bar.git/hyprload.toml";
     EvPopen "export HYPRLAND_HEADERS=/usr/include/hyprland && cd /p/src/bar.git && make && cd -";
     EvExists "/p/src/bar.git/hyprload.toml";
     EvParse "/p/src/bar.git/hyprload.toml";
     EvExists "/p/src/bar.git/libbar.so";
     EvExists "/p/bin/libbar.so";
     EvCopy "/p/src/bar.git/libbar.so" "/p/bin/libbar.so"].
Proof.
  split.
  - destruct (git_install_clones_or_publishes Sim.bar_env Sim.bar_source "bar" [])
      as [Habsent _].
    destruct (Habsent ltac:(vm_compute; reflexivity)) as [_ ->].
    vm_compute. reflexivity.
  - destruct (git_install_clones_or_publishes Sim.bar_env Sim.bar_source "bar"
                Sim.bar_cloned) as [_ Hpresent].
    set (b := GitPluginSource_build Sim.bar_env Sim.bar_source "bar" Sim.bar_cloned).
    assert (b = (Value (ok tt), state_of b, trace_of b)) as Hb
      by (vm_compute; reflexivity).
    destruct (Hpresent ltac:(vm_compute; reflexivity) _ _ _ Hb) as [_ Hok].
    set (l := getPluginManifest Sim.bar_env (git_pSourcePath Sim.bar_source) "bar"
                (state_of b)).
    assert (l = (Value (ok Sim.bar_manifest), state_of l, trace_of l)) as Hl
      by (vm_compute; reflexivity).
    destruct (Hok eq_refl _ _ _ Hl) as [_ Hpub].
    destruct (Hpub Sim.bar_manifest eq_refl) as [_ Hcopy].
    set (s2 := state_of l) in *.
    rewrite (Hcopy ltac:(vm_compute; reflexivity) false s2
               (("/p/bin/libbar.so", "ELF") :: s2)
               ltac:(vm_compute; reflexivity)
               ltac:(vm_compute; reflexivity)
               ltac:(vm_compute; reflexivity)).
    vm_compute. reflexivity.
Defined.

(** A status command that succeeds never makes a Git source up to date:
    the answer is true only on a status other than 0. *)
Lemma isUpToDate_false_on_status_success (E : Env) (g : GitPluginSource)
    (s s1 s2 : state E) (output : string) :
  std_system E (fetch_command g) s = (0, s1) ->
  popen_run E (status_command g) s1 = Some (0, output, s2) ->
  result_of (GitPluginSource_isUpToDate E g s) = Value false.
Proof.
  intros Hfetch Hstatus. unfold GitPluginSource_isUpToDate.
  fold (fetch_command g). fold (status_command g).
  unfold bind, system_, executeCommand. rewrite Hfetch. cbn.
  rewrite Hstatus. reflexivity.
Qed.

Lemma isUpToDate_true_only_when_fetched_witness :
  GitPluginSource_isUpToDate Sim.failing_pipe_env Sim.bar_source Sim.bar_cloned
  = (Value true, Sim.bar_cloned ++ Sim.bar_cloned,
     [EvSystem "git -C /p/src/bar.git remote update";
      EvPopen "git -C /p/src/bar.git status -uno"]) /\
  exists s1 exit output,
    std_system Sim.failing_pipe_env (fetch_command Sim.bar_source) Sim.bar_cloned
    = (0, s1) /\
    executeCommand Sim.failing_pipe_env (status_command Sim.bar_source) s1
    = (Value (exit, output), Sim.bar_cloned ++ Sim.bar_cloned,
       [EvPopen (status_command Sim.bar_source)]) /\
    Str.find output "ahead" = Str.npos.
Proof.
  assert (GitPluginSource_isUpToDate Sim.failing_pipe_env Sim.bar_source
            Sim.bar_cloned
          = (Value true, Sim.bar_cloned ++ Sim.bar_cloned,
             [EvSystem "git -C /p/src/bar.git remote update";
              EvPopen "git -C /p/src/bar.git status -uno"])) as Hrun
    by (vm_compute; reflexivity).
  split; [exact Hrun|].
  destruct (isUpToDate_true_only_when_fetched Sim.failing_pipe_env
              Sim.bar_source (LocalPluginSource_ctor "/home/u/widget"))
    as [Hgit _].
  exact (Hgit _ _ _ Hrun).
Defined.

(** C7, counterexample: a [git] field is present, but it is not a string;
    the [local] field is honoured and a Local source constructed. *)
Lemma mistyped_git_selects_local :
  Toml.contains Sim.mistyped_git_requirement "git" = true /\
  PluginRequirement_ctor Sim.bar_env Sim.mistyped_git_requirement
  = Value {| req_sName := "widget";
             req_pSource := Local (LocalPluginSource_ctor "/home/u/widget");
             req_pBinaryPath := "/p/bin/widget.so" |}.
Proof. split; reflexivity. Qed.

Lemma requirement_source_selection_witness :
  (exists r g,
     PluginRequirement_ctor Sim.bar_env Sim.bar_requirement = Value r /\
     req_pSource r = Git g /\
     GitPluginSource_ctor Sim.bar_env "foo/bar"
       (branch_or_main Sim.bar_requirement) = Value g) /\
  (exists r,
     PluginRequirement_ctor Sim.bar_env Sim.mistyped_git_requirement = Value r /\
     req_pSource r = Local (LocalPluginSource_ctor "/home/u/widget")) /\
  PluginRequirement_ctor Sim.bar_env [("name", Toml.Str "orphan")]
  = Throw "Plugin must have a source".
Proof.
  split; [|split].
  - destruct (requirement_source_selection Sim.bar_env Sim.bar_requirement)
      as (Hgit & _).
    apply Hgit. reflexivity.
  - destruct (requirement_source_selection Sim.bar_env
                Sim.mistyped_git_requirement) as (_ & Hlocal & _).
    apply Hlocal; reflexivity.
  - destruct (requirement_source_selection Sim.bar_env
                [("name", Toml.Str "orphan")]) as (_ & _ & Hnone & _).
    apply Hnone; reflexivity.
Defined.

(** C8, counterexample: without headers and without a manifest the error
    is the manifest's, not the setup instructions. *)
Lemma missing_manifest_reported_before_headers :
  getHyprlandHeadersPath Sim.no_headers_env [] = None /\
  buildPlugin Sim.no_headers_env "/p/src/bar.git" "bar" []
  = (Value (err "Source does not have a hyprload.toml manifest"), [],
     [EvHeaders; EvExists "/p/src/bar.git/hyprload.toml"]).
Proof. split; reflexivity. Qed.

Lemma buildPlugin_without_headers_witness :
  buildPlugin Sim.no_headers_env "/p/src/bar.git" "bar" Sim.bar_cloned
  = (Value (err headers_error), Sim.bar_cloned,
     [EvHeaders; EvExists "/p/src/bar.git/hyprload.toml";
      EvParse "/p/src/bar.git/hyprload.toml"]).
Proof.
  destruct (buildPlugin_without_headers Sim.no_headers_env "/p/src/bar.git"
              "bar" Sim.bar_cloned ltac:(reflexivity)) as [_ ->].
  vm_compute. reflexivity.
Defined.

(** C9, counterexample: the tree of [foo/bar] is [/p/src/bar.git], not
    [/p/src/bar], although the requirement is named [bar]. *)
Lemma shorthand_tree_ends_in_dot_git :
  GitPluginSource_ctor Sim.bar_env "foo/bar" "main" = Value Sim.bar_source /\
  git_pSourcePath Sim.bar_source = "/p/src/bar.git" /\
  git_pSourcePath Sim.bar_source <> getPluginsPath Sim.bar_env // "src" // "bar" /\
  Str.after_last_slash "foo/bar" = Some "bar".
Proof. repeat split; try reflexivity. by vm_compute. Qed.

Lemma git_source_path_of_shorthand_witness :
  exists g,
    GitPluginSource_ctor Sim.bar_env ("foo" +:+ "/" +:+ "bar") "main" = Value g /\
    git_sUrl g = "https://github.com/" +:+ ("foo" +:+ "/" +:+ "bar") +:+ ".git" /\
    git_pSourcePath g = getPluginsPath Sim.bar_env // "src" // ("bar" +:+ ".git") /\
    Str.after_last_slash ("foo" +:+ "/" +:+ "bar") = Some "bar".
Proof.
  apply (git_source_path_of_shorthand Sim.bar_env "foo" "bar" "main").
  - reflexivity.
  - vm_compute. lia.
  - vm_compute. lia.
  - vm_compute. reflexivity.
Defined.

(** * Further properties *)

(** ** The manifest constructors *)

Section ManifestOutcomes.

Import Toml.

Lemma string_or_ok t key default :
  scalar_ok (get t key) = true -> exists v, string_or t key default = Value v.
Proof.
  rewrite string_or_cases. destruct (get t key) as [[]|]; simpl; eauto; done.
Qed.

Lemma string_or_bad t key default :
  scalar_ok (get t key) = false -> string_or t key default = Undefined.
Proof. rewrite string_or_cases. by destruct (get t key) as [[]|]. Qed.

Lemma authors_of_ok t :
  bad_authors t = false ->
  view_is_array (get t "authors") || scalar_ok (get t "author") = true ->
  exists authors, authors_of t = Value authors.
Proof.
  unfold bad_authors, view_is_array. rewrite authors_of_cases.
  destruct (get t "authors") as [[| | |arr|]|]; simpl.
  4: { intros Hall%negb_false_iff _.
       destruct (push_strings_all "Author must be a string" arr [] Hall)
         as (ss & _ & ->). eauto. }
  all: intros _; destruct (get t "author") as [[]|]; simpl; eauto; done.
Qed.

Lemma authors_of_bad t :
  view_is_array (get t "authors") || scalar_ok (get t "author") = false ->
  authors_of t = Undefined.
Proof.
  unfold view_is_array. rewrite authors_of_cases.
  destruct (get t "authors") as [[]|]; simpl; try done.
  all: by destruct (get t "author") as [[]|].
Qed.

Lemma ctor_after_scalars name t :
  bad_authors t = false -> scalars_ok t = true ->
  exists authors version description,
    PluginManifest_ctor name t =
    obind (build_of t) (fun build =>
    obind (output_of name build) (fun output =>
    obind (steps_of build) (fun steps =>
      Value {| m_sName := name;
               m_sAuthors := authors;
               m_sVersion := version;
               m_sDescription := description;
               m_pBinaryOutputPath := output;
               m_sBuildSteps := steps |}))).
Proof.
  intros Hbad Hok. unfold scalars_ok in Hok.
  apply andb_true_iff in Hok as [Hok Hd]. apply andb_true_iff in Hok as [Ha Hv].
  destruct (authors_of_ok t Hbad Ha) as [authors Hauthors].
  destruct (string_or_ok t "version" "0.0.0" Hv) as [version Hversion].
  destruct (string_or_ok t "description" "No description provided" Hd)
    as [description Hdescription].
  exists authors, version, description.
  rewrite PluginManifest_ctor_phases, Hauthors, Hversion, Hdescription.
  reflexivity.
Qed.

(** X1.  What the constructor of [PluginManifest] does with a table, decided
    in this order: an author of an [authors] array that is not a string is
    an exception; then an [author], [version] or [description] that is read
    and is not a string is undefined behaviour; then [build] must be a
    table, [build.steps] an array, every step a string, each with its own
    exception; every other table gives a manifest. *)
Theorem PluginManifest_ctor_decisions name t :
  (bad_authors t = true ->
     PluginManifest_ctor name t = Throw "Author must be a string") /\
  (bad_authors t = false ->
     (scalars_ok t = false -> PluginManifest_ctor name t = Undefined) /\
     (scalars_ok t = true ->
        (view_is_table (get t "build") = false ->
           PluginManifest_ctor name t = Throw "Plugin must have a build table") /\
        (forall build, get t "build" = Some (Table build) ->
           (view_is_array (get build "steps") = false ->
              PluginManifest_ctor name t = Throw "Plugin must have build steps") /\
           (forall steps, get build "steps" = Some (Array steps) ->
              (all_strings steps = false ->
                 PluginManifest_ctor name t = Throw "Build step must be a string") /\
              (all_strings steps = true ->
                 is_value (PluginManifest_ctor name t) = true))))).
Proof.
  split.
  { unfold bad_authors.
    destruct (get t "authors") as [[| | |authors|]|] eqn:Hau; try done.
    intros Hall%negb_true_iff. by apply ctor_rejects_bad_author with authors. }
  intros Hbad. split.
  { intros Hok. rewrite PluginManifest_ctor_phases.
    destruct (view_is_array (get t "authors") || scalar_ok (get t "author"))
      eqn:Ha.
    2: { by rewrite authors_of_bad. }
    destruct (authors_of_ok t Hbad Ha) as [authors ->]. cbn [obind].
    destruct (scalar_ok (get t "version")) eqn:Hv.
    2: { by rewrite string_or_bad. }
    destruct (string_or_ok t "version" "0.0.0" Hv) as [version ->].
    cbn [obind]. rewrite string_or_bad; [done|].
    unfold scalars_ok in Hok. rewrite Ha, Hv in Hok. exact Hok. }
  intros Hok.
  destruct (ctor_after_scalars name t Hbad Hok)
    as (authors & version & description & ->).
  split.
  { intros Hb. by rewrite build_of_throw. }
  intros build Hb. apply build_of_value in Hb. rewrite Hb. cbn [obind].
  pose proof (output_of_value name build) as Hout.
  destruct (output_of name build) as [output| |]; try done. cbn [obind].
  split.
  { intros Hs. unfold steps_of, contains, view_is_array in *.
    by destruct (get build "steps") as [[]|]. }
  intros steps Hs. unfold steps_of, contains, view_is_array, view_as_array.
  rewrite Hs. simpl. split.
  - intros Hall. by rewrite (push_strings_throw _ steps [] Hall).
  - intros Hall.
    by destruct (push_strings_all "Build step must be a string" steps [] Hall)
      as (ss & _ & ->).
Qed.

Lemma ctor_value_inv name t m :
  PluginManifest_ctor name t = Value m ->
  exists build,
    getName m = name /\
    authors_of t = Value (getAuthors m) /\
    string_or t "version" "0.0.0" = Value (getVersion m) /\
    string_or t "description" "No description provided"
    = Value (getDescription m) /\
    build_of t = Value build /\
    output_of name build = Value (getBinaryOutputPath m) /\
    steps_of build = Value (getBuildSteps m).
Proof.
  rewrite PluginManifest_ctor_phases. intros H.
  destruct (authors_of t) as [authors| |]; [|done..]. cbn [obind] in H.
  destruct (string_or t "version" "0.0.0") as [version| |]; [|done..].
  cbn [obind] in H.
  destruct (string_or t "description" "No description provided")
    as [description| |]; [|done..].
  cbn [obind] in H.
  destruct (build_of t) as [build| |]; [|done..]. cbn [obind] in H.
  destruct (output_of name build) as [output| |] eqn:Ho; [|done..].
  cbn [obind] in H.
  destruct (steps_of build) as [steps| |] eqn:Hs; [|done..]. cbn [obind] in H.
  simplify_eq. exists build. simpl. by repeat split.
Qed.

(** X2.  The fields of a manifest that was constructed: the name is the key
    it was constructed with; version and description are the strings given,
    or "0.0.0" and "No description provided"; the artifact is the string
    [build.output], or [<name>.so] when there is none or it is not a string;
    the authors are those of the [authors] array, which shadows [author]. *)
Theorem PluginManifest_fields name t m :
  PluginManifest_ctor name t = Value m ->
  getName m = name /\
  getVersion m
  = match get t "version" with Some (Str v) => v | _ => "0.0.0" end /\
  getDescription m
  = match get t "description" with
    | Some (Str d) => d
    | _ => "No description provided"
    end /\
  (exists build,
     get t "build" = Some (Table build) /\
     getBinaryOutputPath m
     = match get build "output" with
       | Some (Str output) => output
       | _ => name +:+ ".so"
       end) /\
  (forall authors, get t "authors" = Some (Array authors) ->
     authors = map Str (getAuthors m)).
Proof.
  intros H. apply ctor_value_inv in H
    as (build & Hn & Ha & Hv & Hd & Hb & Ho & _).
  split; [exact Hn|].
  rewrite string_or_cases in Hv, Hd. split; [|split; [|split]].
  - destruct (get t "version") as [[]|]; by simplify_eq.
  - destruct (get t "description") as [[]|]; by simplify_eq.
  - exists build. apply build_of_value in Hb. split; [exact Hb|].
    unfold output_of, contains, view_is_string, view_as_string in Ho.
    destruct (get build "output") as [[]|]; by simplify_eq/=.
  - intros authors Hau. rewrite authors_of_cases, Hau in Ha.
    by apply push_strings_value in Ha as (ss & -> & ->).
Qed.

Lemma emplace_plugins_value entries plugins l :
  emplace_plugins entries plugins = Value l ->
  exists more,
    l = plugins ++ more /\
    map getName more = map fst (table_entries entries) /\
    Forall2 (fun plugin entry =>
               exists t, entry.2 = Table t /\
                         PluginManifest_ctor entry.1 t = Value plugin)
            more (table_entries entries).
Proof.
  revert plugins. induction entries as [|[key value] rest IH]; intros plugins H.
  - simpl in H. simplify_eq. exists []. by rewrite app_nil_r.
  - simpl in H. unfold table_entries. rewrite filter_cons. simpl.
    destruct value as [| | | |t]; simpl in H;
      try (rewrite decide_False by done; by apply IH).
    rewrite decide_True by done.
    destruct (PluginManifest_ctor key t) as [plugin| |] eqn:Hp; [|done..].
    cbn [obind] in H. apply IH in H as (more & -> & Hnames & Hall).
    exists (plugin :: more). rewrite <- app_assoc. split; [done|].
    split.
    + simpl. f_equal; [|exact Hnames].
      by apply ctor_value_inv in Hp as (? & -> & _).
    + constructor; [|exact Hall]. by exists t.
Qed.

Lemma HyprloadManifest_value_inv doc hm :
  HyprloadManifest_ctor doc = Value hm ->
  map getName (getPlugins hm) = map fst (table_entries doc) /\
  Forall2 (fun plugin entry =>
             exists t, entry.2 = Table t /\
                       PluginManifest_ctor entry.1 t = Value plugin)
          (getPlugins hm) (table_entries doc).
Proof.
  unfold HyprloadManifest_ctor. intros H.
  destruct (emplace_plugins doc []) as [plugins| |] eqn:He; [|done..].
  cbn [obind] in H. simplify_eq. simpl.
  by apply emplace_plugins_value in He as (more & -> & ? & ?).
Qed.

(** X3.  The plugins of a [HyprloadManifest] that was constructed are the
    entries of the document that are tables, in the order in which
    [for_each] visits the entries of the table (for toml++ the order of the
    keys, whatever the order of the file), each constructed from its own
    table under its own key; entries that are not tables leave no trace. *)
Theorem HyprloadManifest_plugins doc hm :
  HyprloadManifest_ctor doc = Value hm ->
  map getName (getPlugins hm) = map fst (table_entries doc) /\
  Forall2 (fun plugin entry =>
             exists t, entry.2 = Table t /\
                       PluginManifest_ctor entry.1 t = Value plugin)
          (getPlugins hm) (table_entries doc).
Proof. apply HyprloadManifest_value_inv. Qed.

Lemma find_plugin_app name a b :
  find_plugin name (a ++ b)
  = match find_plugin name a with
    | Some m => Some m
    | None => find_plugin name b
    end.
Proof.
  induction a as [|plugin a IH]; simpl; [done|].
  by destruct (String.eqb (getName plugin) name).
Qed.

Lemma find_plugin_elem name plugins m :
  find_plugin name plugins = Some m -> m ∈ plugins /\ getName m = name.
Proof.
  induction plugins as [|plugin rest IH]; simpl; [done|].
  destruct (String.eqb_spec (getName plugin) name) as [Heq|Hne].
  - intros [= <-]. split; [left|done].
  - intros H. destruct (IH H) as [Hin Hn]. split; [by right|done].
Qed.

Lemma find_plugin_none name plugins :
  name ∉ map getName plugins -> find_plugin name plugins = None.
Proof.
  induction plugins as [|plugin rest IH]; simpl; [done|].
  intros Hnot. apply not_elem_of_cons in Hnot as [Hne Hrest].
  destruct (String.eqb_spec (getName plugin) name); [done|]. by apply IH.
Qed.

Lemma emplace_plugins_lookup name t entries plugins l :
  emplace_plugins entries plugins = Value l ->
  find_plugin name plugins = None ->
  get entries name = Some (Table t) ->
  exists m, PluginManifest_ctor name t = Value m /\ find_plugin name l = Some m.
Proof.
  revert plugins. induction entries as [|[key value] rest IH];
    intros plugins H Hnone Hget; [done|].
  simpl in H, Hget. destruct (String.eqb_spec key name) as [->|Hne].
  - simplify_eq. simpl in H.
    destruct (PluginManifest_ctor name t) as [plugin| |] eqn:Hp; [|done..].
    cbn [obind] in H. exists plugin. split; [done|].
    apply emplace_plugins_value in H as (more & -> & _).
    rewrite <- app_assoc, find_plugin_app, Hnone. simpl.
    apply ctor_value_inv in Hp as (_ & Hn & _). unfold getName in *.
    rewrite Hn. by rewrite String.eqb_refl.
  - destruct value as [| | | |t']; simpl in H; try by eapply IH.
    destruct (PluginManifest_ctor key t') as [plugin| |] eqn:Hp; [|done..].
    cbn [obind] in H. eapply IH; [exact H| |exact Hget].
    rewrite find_plugin_app, Hnone. simpl.
    apply ctor_value_inv in Hp as (_ & Hn & _).
    destruct (String.eqb_spec (getName plugin) name); [congruence|done].
Qed.

(** X5.  Looking a plugin up in a manifest that was constructed finds what
    its entry was constructed to: when the document has a table under the
    name, the plugin found is the manifest of that table; when no table of
    the document is under the name, none is found. *)
Theorem find_plugin_after_construction doc hm name :
  HyprloadManifest_ctor doc = Value hm ->
  (forall t, get doc name = Some (Table t) ->
     exists m, PluginManifest_ctor name t = Value m /\
               find_plugin name (getPlugins hm) = Some m) /\
  ((forall t, (name, Table t) ∉ doc) ->
     find_plugin name (getPlugins hm) = None).
Proof.
  intros H. split.
  - intros t Hget. unfold HyprloadManifest_ctor in H.
    destruct (emplace_plugins doc []) as [plugins| |] eqn:He; [|done..].
    cbn [obind] in H. simplify_eq. simpl.
    by eapply emplace_plugins_lookup.
  - intros Hnot. apply find_plugin_none.
    destruct (HyprloadManifest_value_inv doc hm H) as [-> _].
    intros ([key value] & -> & Hin)%list_elem_of_fmap.
    apply list_elem_of_filter in Hin as [Htable Hin]. simpl in *.
    destruct value as [| | | |t]; try done. by apply (Hnot t).
Qed.

(** One entry is enough to lose the whole document. *)
Lemma HyprloadManifest_spoiled doc key t :
  (key, Table t) ∈ doc ->
  is_value (PluginManifest_ctor key t) = false ->
  is_value (HyprloadManifest_ctor doc) = false.
Proof.
  intros Hin Hbad.
  destruct (HyprloadManifest_ctor doc) as [hm| |] eqn:Hc; [|done..].
  exfalso. destruct (HyprloadManifest_value_inv doc hm Hc) as [_ Hall].
  assert ((key, Table t) ∈ table_entries doc) as Hentry.
  { unfold table_entries. by apply list_elem_of_filter. }
  apply list_elem_of_lookup in Hentry as [i Hi].
  destruct (Forall2_lookup_r _ _ _ _ _ Hall Hi) as (plugin & _ & t' & Ht & Hp).
  simpl in *. simplify_eq. by rewrite Hp in Hbad.
Qed.

End ManifestOutcomes.

(** ** Loading and building *)

Section Loading.

Context (E : Env).

Lemma str_app_assoc (a b c : string) : (a +:+ b) +:+ c = a +:+ (b +:+ c).
Proof.
  induction a as [|x a IH]; [done|].
  change (String x a +:+ b) with (String x (a +:+ b)).
  change (String x (a +:+ b) +:+ c) with (String x ((a +:+ b) +:+ c)).
  by rewrite IH.
Qed.

Lemma getHyprlandManifest_run p s :
  getHyprlandManifest E p s
  = match fs_exists E (p // "hyprload.toml") s with
    | Some true =>
      (match toml_parse E (p // "hyprload.toml") s with
       | inl what => Value (err ("Failed to parse source manifest: " +:+ what))
       | inr doc =>
           match HyprloadManifest_ctor doc with
           | Value hm => Value (ok hm)
           | Throw what => Throw what
           | Undefined => Undefined
           end
       end, s,
       [EvExists (p // "hyprload.toml"); EvParse (p // "hyprload.toml")])
    | Some false =>
      (Value (err "Source does not have a hyprload.toml manifest"), s,
       [EvExists (p // "hyprload.toml")])
    | None =>
      (Throw "filesystem error: cannot stat", s,
       [EvExists (p // "hyprload.toml")])
    end.
Proof.
  unfold getHyprlandManifest.
  destruct (fs_exists E (p // "hyprload.toml") s) as [[]|] eqn:Hex.
  2: { by rewrite (bind_value E _ _ _ _ _ _ (exists_run E _ s _ Hex)). }
  2: { by rewrite (bind_throw E _ _ _ _ _ _ (exists_throws E _ s Hex)). }
  rewrite (bind_value E _ _ _ _ _ _ (exists_run E _ s _ Hex)). cbn [negb].
  unfold bind, parse_, lift, ret, result_of, state_of, trace_of.
  destruct (toml_parse E (p // "hyprload.toml") s) as [what|doc]; cbn; [done|].
  by destruct (HyprloadManifest_ctor doc).
Qed.

Lemma getPluginManifest_run p name s :
  getPluginManifest E p name s
  = (match result_of (getHyprlandManifest E p s) with
     | Value (ok hm) =>
         match find_plugin name (getPlugins hm) with
         | Some m => Value (ok m)
         | None => Value (err ("Plugin does not have a manifest for " +:+ name))
         end
     | Value (err e) => Value (err e)
     | Throw what => Throw what
     | Undefined => Undefined
     end, s, trace_of (getHyprlandManifest E p s)).
Proof.
  unfold getPluginManifest.
  destruct (getHyprlandManifest_looks E p s) as [Hs _].
  destruct (getHyprlandManifest E p s) as [[r s1] t1] eqn:Hh.
  cbn in Hs. subst s1. cbn [result_of trace_of fst snd].
  destruct r as [[hm|e]| |].
  - rewrite (bind_value E _ _ _ _ _ _ Hh).
    destruct (find_plugin name (getPlugins hm)); cbn; by rewrite app_nil_r.
  - rewrite (bind_value E _ _ _ _ _ _ Hh). cbn. by rewrite app_nil_r.
  - by rewrite (bind_throw E _ _ _ _ _ _ Hh).
  - by rewrite (bind_undefined E _ _ _ _ _ Hh).
Qed.

(** X6.  Every way [getPluginManifest] can end.  A manifest it returns is the
    first plugin of that name of the document that was parsed; its three
    errors are the missing file, the parser's exception with its message,
    and the name that is not in the document; an exception is either the
    one [std::filesystem::exists] throws when it cannot tell, or the one of
    the manifest constructor, whose undefined behaviour passes through as
    well. *)
Theorem getPluginManifest_results p name s :
  let mp := p // "hyprload.toml" in
  match result_of (getPluginManifest E p name s) with
  | Value (ok m) =>
      getName m = name /\ fs_exists E mp s = Some true /\
      exists doc hm,
        toml_parse E mp s = inr doc /\ HyprloadManifest_ctor doc = Value hm /\
        find_plugin name (getPlugins hm) = Some m
  | Value (err e) =>
      (fs_exists E mp s = Some false /\
       e = "Source does not have a hyprload.toml manifest") \/
      (fs_exists E mp s = Some true /\
       exists what, toml_parse E mp s = inl what /\
                    e = "Failed to parse source manifest: " +:+ what) \/
      (fs_exists E mp s = Some true /\
       exists doc hm,
         toml_parse E mp s = inr doc /\ HyprloadManifest_ctor doc = Value hm /\
         find_plugin name (getPlugins hm) = None /\
         e = "Plugin does not have a manifest for " +:+ name)
  | Throw what =>
      fs_exists E mp s = None \/
      (fs_exists E mp s = Some true /\
       exists doc, toml_parse E mp s = inr doc /\
                   HyprloadManifest_ctor doc = Throw what)
  | Undefined =>
      fs_exists E mp s = Some true /\
      exists doc, toml_parse E mp s = inr doc /\
                  HyprloadManifest_ctor doc = Undefined
  end.
Proof.
  intros mp. rewrite getPluginManifest_run, getHyprlandManifest_run. fold mp.
  destruct (fs_exists E mp s) as [[]|] eqn:Hex; cbn; [|by left..].
  destruct (toml_parse E mp s) as [what|doc] eqn:Hparse; cbn.
  { right. left. eauto. }
  destruct (HyprloadManifest_ctor doc) as [hm| |] eqn:Hc; cbn; eauto.
  destruct (find_plugin name (getPlugins hm)) as [m|] eqn:Hf; cbn.
  - split; [by eapply find_plugin_name|]. eauto 10.
  - right. right. eauto 10.
Qed.

(** X4.  A plugin entry that cannot be constructed makes the loaders leave
    through an exception or undefined behaviour, whatever plugin is asked
    for: neither [getPluginManifest] nor [buildPlugin] returns a result, and
    [buildPlugin] runs no command. *)
Theorem malformed_entry_escapes p name s doc key t :
  fs_exists E (p // "hyprload.toml") s = Some true ->
  toml_parse E (p // "hyprload.toml") s = inr doc ->
  (key, Toml.Table t) ∈ doc ->
  is_value (PluginManifest_ctor key t) = false ->
  is_value (result_of (getPluginManifest E p name s)) = false /\
  is_value (result_of (buildPlugin E p name s)) = false /\
  Forall (fun ev => runs_command ev = false) (trace_of (buildPlugin E p name s)).
Proof.
  intros Hex Hparse Hin Hbad.
  pose proof (HyprloadManifest_spoiled doc key t Hin Hbad) as Hdoc.
  assert (getPluginManifest E p name s
          = (match HyprloadManifest_ctor doc with
             | Value hm => Undefined
             | Throw what => Throw what
             | Undefined => Undefined
             end, s,
             [EvExists (p // "hyprload.toml"); EvParse (p // "hyprload.toml")]))
    as Hm.
  { rewrite getPluginManifest_run, getHyprlandManifest_run, Hex, Hparse. cbn.
    by destruct (HyprloadManifest_ctor doc). }
  unfold buildPlugin.
  rewrite (bind_value E _ _ _ _ _ _ (headers_run E s)). rewrite Hm.
  destruct (HyprloadManifest_ctor doc) as [hm| |]; [done| |].
  - rewrite (bind_throw E _ _ _ _ _ _ Hm). cbn. repeat split.
    repeat constructor.
  - rewrite (bind_undefined E _ _ _ _ _ Hm). cbn. repeat split.
    repeat constructor.
Qed.

(** X7.  The build line is the prologue (export of the headers, change to
    the source directory), then every step of the manifest in order, each
    followed by " && ", then "cd -"; without steps it is the prologue and
    "cd -". *)
Theorem build_command_joins_steps (headers sourcePath : path)
    (steps : list string) :
  build_command headers sourcePath steps
  = build_prologue headers sourcePath
      +:+ fold_right (fun step rest => step +:+ " && " +:+ rest) "cd -" steps.
Proof.
  unfold build_command. fold (build_prologue headers sourcePath).
  generalize (build_prologue headers sourcePath) as prologue.
  induction steps as [|step steps IH]; intros prologue; [done|].
  cbn [fold_left fold_right]. rewrite IH. by rewrite !str_app_assoc.
Qed.

Lemma executeCommand_run command s :
  executeCommand E command s
  = match popen_run E command s with
    | None => (Value (-1, "Failed to execute command"), s, [EvPopen command])
    | Some (exit, output, s') => (Value (exit, output), s', [EvPopen command])
    end.
Proof. reflexivity. Qed.

(** X8.  With the headers found and the manifest loaded, [buildPlugin] runs
    one command, the build line of the manifest's steps, after having only
    looked at the manifest.  It succeeds exactly on exit status 0; any
    other status is an error that carries the output of the command; a
    pipe that cannot be opened is reported as such an error too. *)
Theorem buildPlugin_runs_build_line p name s headers m :
  getHyprlandHeadersPath E s = Some headers ->
  result_of (getPluginManifest E p name s) = Value (ok m) ->
  let line := build_command headers p (getBuildSteps m) in
  let looked := EvHeaders :: trace_of (getPluginManifest E p name s) in
  buildPlugin E p name s
  = match popen_run E line s with
    | None =>
        (Value (err "Failed to build plugin: Failed to execute command"), s,
         looked ++ [EvPopen line])
    | Some (exit, output, s') =>
        (Value (build_verdict exit output), s', looked ++ [EvPopen line])
    end.
Proof.
  intros Hh Hm line looked.
  destruct (getPluginManifest_looks E p name s) as [Hs _].
  destruct (getPluginManifest E p name s) as [[rm s1] tm] eqn:Hrun.
  cbn in Hm, Hs. subst rm s1. unfold buildPlugin.
  rewrite (bind_value E _ _ _ _ _ _ (headers_run E s)), Hh.
  rewrite (bind_value E _ _ _ _ _ _ Hrun). fold line.
  unfold bind. rewrite executeCommand_run. unfold looked, build_verdict.
  cbn [trace_of snd]. destruct (popen_run E line s) as [[[exit output] s']|].
  - destruct (negb (exit =? 0)); reflexivity.
  - reflexivity.
Qed.

Lemma system_run command s :
  system_ E command s
  = ((Value (std_system E command s).1), (std_system E command s).2,
     [EvSystem command]).
Proof. unfold system_. by destruct (std_system E command s). Qed.

(** X9.  What [isUpToDate] of a Git source answers, exactly.  A fetch that
    fails answers false and the status is not asked for.  After a fetch
    that succeeds the answer is true exactly when the status command ended
    with a status other than 0 and printed no "ahead"; in particular it is
    false whenever the status command succeeds, and true when its pipe
    cannot be opened. *)
Theorem git_isUpToDate_exactly (g : GitPluginSource) (s : state E) :
  let fetched := std_system E (fetch_command g) s in
  (fetched.1 <> 0 ->
     GitPluginSource_isUpToDate E g s
     = (Value false, fetched.2, [EvSystem (fetch_command g)])) /\
  (fetched.1 = 0 ->
     trace_of (GitPluginSource_isUpToDate E g s)
     = [EvSystem (fetch_command g); EvPopen (status_command g)] /\
     result_of (GitPluginSource_isUpToDate E g s)
     = match popen_run E (status_command g) fetched.2 with
       | None => Value true
       | Some (exit, output, _) =>
           Value (negb (exit =? 0) && (Str.find output "ahead" =? Str.npos))
       end).
Proof.
  intros fetched. unfold GitPluginSource_isUpToDate.
  fold (fetch_command g). fold (status_command g).
  rewrite (bind_value E _ _ _ _ _ _ (system_run (fetch_command g) s)).
  fold fetched. split.
  - intros Hne. destruct (Z.eqb_spec fetched.1 0); [done|]. cbn.
    reflexivity.
  - intros ->. cbn [Z.eqb negb]. unfold bind. rewrite executeCommand_run.
    destruct (popen_run E (status_command g) fetched.2) as [[[exit out] s']|];
      cbn; split; reflexivity.
Qed.

(** X10.  [update] of a Git source pulls first.  A pull that fails is the
    error "Failed to update plugin source" and nothing else is done; after
    a pull that succeeds [update] is [install], on the state the pull
    left. *)
Theorem git_update_pulls_then_installs (g : GitPluginSource) (name : string)
    (s : state E) :
  let pulled := std_system E (pull_command g) s in
  (pulled.1 <> 0 ->
     GitPluginSource_update E g name s
     = (Value (err "Failed to update plugin source"), pulled.2,
        [EvSystem (pull_command g)])) /\
  (pulled.1 = 0 ->
     GitPluginSource_update E g name s
     = (result_of (GitPluginSource_install E g name pulled.2),
        state_of (GitPluginSource_install E g name pulled.2),
        EvSystem (pull_command g)
          :: trace_of (GitPluginSource_install E g name pulled.2))).
Proof.
  intros pulled. unfold GitPluginSource_update. fold (pull_command g).
  rewrite (bind_value E _ _ _ _ _ _ (system_run (pull_command g) s)).
  fold pulled. split.
  - intros Hne. by destruct (Z.eqb_spec pulled.1 0).
  - by intros ->.
Qed.

(** X21.  Loading a manifest only looks: [getHyprlandManifest] and
    [getPluginManifest] leave the state as it was and neither run a command
    nor remove or copy a file; all they do is ask whether the manifest is
    there and, when it is, parse it. *)
Theorem manifest_loading_is_read_only p name s :
  state_of (getHyprlandManifest E p s) = s /\
  state_of (getPluginManifest E p name s) = s /\
  trace_of (getPluginManifest E p name s) = trace_of (getHyprlandManifest E p s) /\
  trace_of (getHyprlandManifest E p s)
  = EvExists (p // "hyprload.toml")
      :: match fs_exists E (p // "hyprload.toml") s with
         | Some true => [EvParse (p // "hyprload.toml")]
         | _ => []
         end.
Proof.
  rewrite getPluginManifest_run, getHyprlandManifest_run.
  by destruct (fs_exists E (p // "hyprload.toml") s) as [[]|].
Qed.

End Loading.

(** ** Installing *)

Section Installing.

Context (E : Env).

(** X11.  [install] on a Local source whose directory is missing fails with
    "Source for <name> does not exist" after that one look; on a directory
    that is there it builds, then loads the plugin manifest, then reports a
    missing artifact, then removes what is at the target path and copies the
    artifact there, stopping at the first of these that fails. *)
Theorem local_install_fails_or_publishes (l : LocalPluginSource)
    (name : string) (s : state E) :
  let dir := local_pSourcePath l in
  (fs_exists E dir s = Some false ->
     LocalPluginSource_install E l name s
     = (Value (err ("Source for " +:+ name +:+ " does not exist")), s,
        [EvExists dir])) /\
  (fs_exists E dir s = Some true ->
     forall rb s1 tb,
       LocalPluginSource_build E l name s = (rb, s1, tb) ->
       (rb <> Value (ok tt) ->
          LocalPluginSource_install E l name s = (rb, s1, EvExists dir :: tb)) /\
       (rb = Value (ok tt) ->
          forall rm s2 tm,
            getPluginManifest E dir name s1 = (rm, s2, tm) ->
            (forall e, rm = Value (err e) ->
               LocalPluginSource_install E l name s
               = (Value (err e), s2, EvExists dir :: tb ++ tm)) /\
            (forall m, rm = Value (ok m) ->
               let out := outputBinary_of dir m in
               let tgt := targetPath_of E dir m in
               (fs_exists E out s2 = Some false ->
                  LocalPluginSource_install E l name s
                  = (Value (err "Plugin binary does not exist"), s2,
                     EvExists dir :: tb ++ tm ++ [EvExists out])) /\
               (fs_exists E out s2 = Some true ->
                  forall stale s3 s4,
                    fs_exists E tgt s2 = Some stale ->
                    (if stale then fs_remove E tgt s2 else Some s2) = Some s3 ->
                    fs_copy E out tgt s3 = Some s4 ->
                    LocalPluginSource_install E l name s
                    = (Value (ok tt), s4,
                       EvExists dir :: tb ++ tm
                         ++ [EvExists out; EvExists tgt]
                         ++ (if stale then [EvRemove tgt] else [])
                         ++ [EvCopy out tgt]))))).
Proof.
  intros dir. split.
  - intros Habsent. unfold LocalPluginSource_install,
      LocalPluginSource_isSourceAvailable. fold dir.
    rewrite (bind_value E _ _ _ _ _ _ (exists_run E dir s _ Habsent)).
    reflexivity.
  - intros Hpresent rb s1 tb Hbuild.
    rewrite (local_install_present E l name s Hpresent). fold dir.
    unfold LocalPluginSource_build in Hbuild. fold dir in Hbuild. split.
    + intros Hrb.
      by rewrite (install_present_build_failed E _ _ _ _ _ _ Hbuild Hrb).
    + intros -> rm s2 tm Hm. split.
      * intros e ->.
        by rewrite (install_present_manifest_error E _ _ _ _ _ _ _ _ Hbuild Hm).
      * intros m -> out tgt.
        rewrite (install_present_publish E _ _ _ _ _ _ _ _ Hbuild Hm). split.
        -- intros Hout. by rewrite (publish_missing E _ _ _ Hout).
        -- intros Hout stale s3 s4 Hstale Hrm Hcp.
           by rewrite (publish_copied E _ _ _ _ _ _ Hout Hstale Hrm Hcp).
Qed.

Lemma getPluginManifest_quiet p name s :
  quiet (trace_of (getPluginManifest E p name s)).
Proof.
  destruct (getPluginManifest_looks E p name s) as [_ [-> | ->]];
    repeat constructor.
Qed.

Lemma buildPlugin_quiet p name s : quiet (trace_of (buildPlugin E p name s)).
Proof.
  unfold buildPlugin.
  rewrite (bind_value E _ _ _ _ _ _ (headers_run E s)). cbn [trace_of snd].
  pose proof (getPluginManifest_quiet p name s) as Hq.
  destruct (getPluginManifest E p name s) as [[rm s1] tm] eqn:Hm.
  cbn [trace_of snd] in Hq. constructor; [done|].
  destruct rm as [[m|e]| |].
  - rewrite (bind_value E _ _ _ _ _ _ Hm).
    destruct (getHyprlandHeadersPath E s) as [h|]; cbn [snd].
    + unfold bind. rewrite executeCommand_run.
      destruct (popen_run E _ s1) as [[[exit out] s']|].
      * destruct (negb (exit =? 0)); cbn; apply Forall_app; split; try done;
          repeat constructor.
      * cbn. apply Forall_app; split; try done; repeat constructor.
    + cbn. by rewrite app_nil_r.
  - rewrite (bind_value E _ _ _ _ _ _ Hm). cbn. by rewrite app_nil_r.
  - by rewrite (bind_throw E _ _ _ _ _ _ Hm).
  - by rewrite (bind_undefined E _ _ _ _ _ Hm).
Qed.

Lemma publish_trace_elems p m s ev :
  ev ∈ trace_of (publish E p m s) ->
  publishes ev = true ->
  fs_exists E (outputBinary_of p m) s = Some true /\
  ((ev = EvRemove (targetPath_of E p m) /\
    fs_exists E (targetPath_of E p m) s = Some true) \/
   ev = EvCopy (outputBinary_of p m) (targetPath_of E p m)).
Proof.
  unfold publish. fold (outputBinary_of p m). fold (targetPath_of E p m).
  set (out := outputBinary_of p m). set (tgt := targetPath_of E p m).
  destruct (fs_exists E out s) as [[]|] eqn:Hout.
  2: { rewrite (bind_value E _ _ _ _ _ _ (exists_run E out s _ Hout)).
       cbn. by intros ->%list_elem_of_singleton. }
  2: { rewrite (bind_throw E _ _ _ _ _ _ (exists_throws E out s Hout)).
       cbn. by intros ->%list_elem_of_singleton. }
  rewrite (bind_value E _ _ _ _ _ _ (exists_run E out s _ Hout)). cbn [negb].
  destruct (fs_exists E tgt s) as [stale|] eqn:Hstale.
  2: { rewrite (bind_throw E _ _ _ _ _ _ (exists_throws E tgt s Hstale)).
       cbn. intros Hin Hp.
       repeat (apply elem_of_cons in Hin as [->|Hin]; try done).
       by apply elem_of_nil in Hin. }
  rewrite (bind_value E _ _ _ _ _ _ (exists_run E tgt s _ Hstale)).
  unfold bind, remove_, copy_, ret, result_of, state_of, trace_of.
  destruct stale.
  - destruct (fs_remove E tgt s) as [s3|]; cbn.
    + destruct (fs_copy E out tgt s3) as [s4|]; cbn; intros Hin Hp;
        repeat (apply elem_of_cons in Hin as [->|Hin]; try done; eauto);
        by apply elem_of_nil in Hin.
    + intros Hin Hp.
      repeat (apply elem_of_cons in Hin as [->|Hin]; try done; eauto);
        by apply elem_of_nil in Hin.
  - destruct (fs_copy E out tgt s) as [s4|]; cbn; intros Hin Hp;
      repeat (apply elem_of_cons in Hin as [->|Hin]; try done; eauto);
      by apply elem_of_nil in Hin.
Qed.

Lemma quiet_elem t ev : quiet t -> ev ∈ t -> publishes ev = true -> False.
Proof.
  unfold quiet. rewrite Forall_forall. intros Hq Hin Hp.
  specialize (Hq ev Hin). congruence.
Qed.

Lemma install_present_trace_elems p name s ev :
  ev ∈ trace_of (install_present E p name s) ->
  publishes ev = true ->
  exists s1 tb m s2 tm,
    buildPlugin E p name s = (Value (ok tt), s1, tb) /\
    getPluginManifest E p name s1 = (Value (ok m), s2, tm) /\
    fs_exists E (outputBinary_of p m) s2 = Some true /\
    ((ev = EvRemove (targetPath_of E p m) /\
      fs_exists E (targetPath_of E p m) s2 = Some true) \/
     ev = EvCopy (outputBinary_of p m) (targetPath_of E p m)).
Proof.
  pose proof (buildPlugin_quiet p name s) as Hqb.
  destruct (buildPlugin E p name s) as [[rb s1] tb] eqn:Hb.
  cbn [trace_of snd] in Hqb.
  destruct rb as [[[]|e]| |].
  2-4: rewrite (install_present_build_failed E _ _ _ _ _ _ Hb) by done;
    intros Hin Hp; by destruct (quiet_elem _ _ Hqb Hin Hp).
  pose proof (getPluginManifest_quiet p name s1) as Hqm.
  destruct (getPluginManifest E p name s1) as [[rm s2] tm] eqn:Hm.
  cbn [trace_of snd] in Hqm.
  assert (quiet (tb ++ tm)) as Hq by (by apply Forall_app).
  destruct rm as [[m|e]| |].
  - rewrite (install_present_publish E _ _ _ _ _ _ _ _ Hb Hm).
    cbn [trace_of snd]. rewrite app_assoc. intros Hin Hp.
    apply elem_of_app in Hin as [Hin|Hin].
    { by destruct (quiet_elem _ _ Hq Hin Hp). }
    exists s1, tb, m, s2, tm. split; [done|]. split; [done|].
    by eapply publish_trace_elems.
  - rewrite (install_present_manifest_error E _ _ _ _ _ _ _ _ Hb Hm).
    intros Hin Hp. by destruct (quiet_elem _ _ Hq Hin Hp).
  - unfold install_present. rewrite (bind_value E _ _ _ _ _ _ Hb).
    cbn [isErr]. rewrite (bind_throw E _ _ _ _ _ _ Hm).
    intros Hin Hp. by destruct (quiet_elem _ _ Hq Hin Hp).
  - unfold install_present. rewrite (bind_value E _ _ _ _ _ _ Hb).
    cbn [isErr]. rewrite (bind_undefined E _ _ _ _ _ Hm).
    intros Hin Hp. by destruct (quiet_elem _ _ Hq Hin Hp).
Qed.

Lemma install_not_present_quiet src name s :
  fs_exists E (presence_marker src) s <> Some true ->
  quiet (trace_of (install E src name s)).
Proof.
  intros Habsent.
  destruct (fs_exists E (presence_marker src) s) as [[]|] eqn:Hex; [done| |];
    destruct src as [g|l]; simpl in *.
  - unfold GitPluginSource_install, GitPluginSource_isSourceAvailable.
    rewrite (bind_value E _ _ _ _ _ _ (exists_run E _ s _ Hex)).
    cbn [negb]. unfold GitPluginSource_installSource.
    rewrite (bind_value E _ _ _ _ _ _ (system_run E _ s)).
    destruct (negb (_ =? 0)); repeat constructor.
  - unfold LocalPluginSource_install, LocalPluginSource_isSourceAvailable.
    rewrite (bind_value E _ _ _ _ _ _ (exists_run E _ s _ Hex)).
    repeat constructor.
  - unfold GitPluginSource_install, GitPluginSource_isSourceAvailable.
    rewrite (bind_throw E _ _ _ _ _ _ (exists_throws E _ s Hex)).
    repeat constructor.
  - unfold LocalPluginSource_install, LocalPluginSource_isSourceAvailable.
    rewrite (bind_throw E _ _ _ _ _ _ (exists_throws E _ s Hex)).
    repeat constructor.
Qed.

(** X12.  Whatever happens, [install] removes and copies only what the
    manifest it loaded says: a removal or a copy in its trace means that the
    source was there, the build succeeded and the manifest of that name
    loaded after it; the copy is the one of that manifest's artifact, which
    exists, to that manifest's target, and the removal is the one of that
    target, which existed. *)
Theorem install_touches_only_the_target (src : PluginSource) (name : string)
    (s : state E) (ev : Event) :
  ev ∈ trace_of (install E src name s) ->
  publishes ev = true ->
  exists s1 tb m s2 tm,
    fs_exists E (presence_marker src) s = Some true /\
    buildPlugin E (sourcePath src) name s = (Value (ok tt), s1, tb) /\
    getPluginManifest E (sourcePath src) name s1 = (Value (ok m), s2, tm) /\
    fs_exists E (outputBinary_of (sourcePath src) m) s2 = Some true /\
    ((ev = EvRemove (targetPath_of E (sourcePath src) m) /\
      fs_exists E (targetPath_of E (sourcePath src) m) s2 = Some true) \/
     ev = EvCopy (outputBinary_of (sourcePath src) m)
                 (targetPath_of E (sourcePath src) m)).
Proof.
  destruct (decide (fs_exists E (presence_marker src) s = Some true))
    as [Hpresent|Habsent].
  - rewrite (install_present_of_source E src name s Hpresent).
    cbn [trace_of snd]. intros Hin Hp.
    apply elem_of_cons in Hin as [->|Hin]; [done|].
    destruct (install_present_trace_elems _ _ s _ Hin Hp)
      as (s1 & tb & m & s2 & tm & ? & ? & ? & ?).
    by exists s1, tb, m, s2, tm.
  - intros Hin Hp.
    by destruct (quiet_elem _ _ (install_not_present_quiet src name s Habsent)
                   Hin Hp).
Qed.

(** X13.  A build that does not succeed leaves the binaries directory
    alone: when [buildPlugin] on the source does not return success,
    [install] removes nothing and copies nothing. *)
Theorem failed_build_publishes_nothing (src : PluginSource) (name : string)
    (s : state E) :
  result_of (buildPlugin E (sourcePath src) name s) <> Value (ok tt) ->
  quiet (trace_of (install E src name s)).
Proof.
  intros Hfail.
  destruct (decide (fs_exists E (presence_marker src) s = Some true))
    as [Hpresent|Habsent].
  2: { by apply install_not_present_quiet. }
  rewrite (install_present_of_source E src name s Hpresent).
  cbn [trace_of snd]. constructor; [done|].
  pose proof (buildPlugin_quiet (sourcePath src) name s) as Hq.
  destruct (buildPlugin E (sourcePath src) name s) as [[rb s1] tb] eqn:Hb.
  cbn in Hfail, Hq.
  by rewrite (install_present_build_failed E _ _ _ _ _ _ Hb Hfail).
Qed.

End Installing.

(** ** Names, URLs and paths *)

Section Naming.

Context (E : Env).

Import Str.

Lemma find_from_ge needle hay : forall i,
  0 <= i -> i <= find_from needle hay i \/ find_from needle hay i = npos.
Proof.
  induction hay as [|a hay IH]; intros i Hi; cbn [find_from].
  - destruct (String.prefix needle EmptyString); [left; lia|by right].
  - destruct (String.prefix needle (String a hay)); [left; lia|].
    destruct (IH (i + 1) ltac:(lia)) as [H|H]; [left; lia|by right].
Qed.

(** [s.find(needle) == 0] is the test that [s] starts with [needle]. *)
Lemma find_zero_prefix s needle :
  (find s needle =? 0) = String.prefix needle s.
Proof.
  unfold find. destruct s as [|a s]; cbn [find_from].
  - by destruct (String.prefix needle EmptyString).
  - destruct (String.prefix needle (String a s)); [done|].
    change (0 + 1) with 1.
    destruct (find_from_ge needle s 1 ltac:(lia)) as [H|H].
    + apply Z.eqb_neq. lia.
    + by rewrite H.
Qed.

Lemma last_segment_no_slash s : has_slash (last_segment s) = false.
Proof.
  induction s as [|a s IH]; [done|].
  cbn [last_segment]. by destruct (has_slash (String a s)) eqn:Hs.
Qed.

Lemma last_segment_suffix s :
  exists pre,
    s = pre +:+ last_segment s /\
    (pre = EmptyString \/ Path.ends_with_separator pre = true).
Proof.
  induction s as [|a s IH]; [by exists EmptyString; split; [|left]|].
  cbn [last_segment]. destruct (has_slash (String a s)) eqn:Hs.
  2: { exists EmptyString. split; [done|by left]. }
  destruct IH as (pre & Heq & Hpre). exists (String a pre). split.
  { change (String a pre +:+ last_segment s)
      with (String a (pre +:+ last_segment s)). by rewrite <- Heq. }
  right. destruct Hpre as [->|Hpre].
  - change (EmptyString +:+ last_segment s) with (last_segment s) in Heq.
    cbn [has_slash] in Hs. rewrite Heq, last_segment_no_slash in Hs.
    rewrite orb_false_r in Hs. simpl. exact Hs.
  - destruct pre as [|b pre]; [done|]. exact Hpre.
Qed.

(** X14.  The name derived from a source string, on every string a
    [std::string] can hold: what follows its last '/', the whole string when
    it has none.  It has no '/' itself, and what precedes it is empty or
    ends in '/'. *)
Theorem derived_name_is_last_segment (s : string) :
  size s < npos ->
  exists pre name,
    after_last_slash s = Some name /\
    s = pre +:+ name /\
    has_slash name = false /\
    (pre = EmptyString \/ Path.ends_with_separator pre = true) /\
    (has_slash s = false -> name = s).
Proof.
  intros Hsize. destruct (last_segment_suffix s) as (pre & Heq & Hpre).
  exists pre, (last_segment s). split; [by apply after_last_slash_spec|].
  split; [exact Heq|]. split; [apply last_segment_no_slash|].
  split; [exact Hpre|]. apply last_segment_none.
Qed.

(** X15.  The constructor of a Git source never fails.  It keeps the branch,
    keeps a URL that starts with "https://" or "git@" as it is, and expands
    anything else to "https://github.com/<url>.git". *)
Theorem git_url_normalisation (url branch : string) :
  exists g,
    GitPluginSource_ctor E url branch = Value g /\
    git_sBranch g = branch /\
    git_sUrl g = normalised_url url.
Proof.
  unfold GitPluginSource_ctor, normalised_url. rewrite !find_zero_prefix.
  destruct (String.prefix "https://" url); cbn [orb].
  { destruct (after_last_slash_total url) as [seg ->]. by eexists. }
  destruct (String.prefix "git@" url).
  { destruct (after_last_slash_total url) as [seg ->]. by eexists. }
  destruct (after_last_slash_total ("https://github.com/" +:+ url +:+ ".git"))
    as [seg ->].
  by eexists.
Qed.

Lemma size_normalised url : size url + 23 < npos -> size (normalised_url url) < npos.
Proof.
  unfold normalised_url. intros H.
  destruct (String.prefix "https://" url || String.prefix "git@" url); [lia|].
  rewrite !size_app. change (size "https://github.com/") with 19.
  change (size ".git") with 4. lia.
Qed.

Lemma dot_git_is_a_name x :
  x +:+ ".git" <> EmptyString /\ x +:+ ".git" <> "." /\ x +:+ ".git" <> "..".
Proof.
  pose proof (size_nonneg x) as Hx.
  repeat split; intros H; apply (f_equal size) in H; rewrite size_app in H.
  - change (size ".git") with 4 in H. change (size EmptyString) with 0 in H.
    lia.
  - change (size ".git") with 4 in H. change (size ".") with 1 in H. lia.
  - change (size ".git") with 4 in H. change (size "..") with 2 in H. lia.
Qed.

(** X16.  Where the tree of a Git source lies, for every URL a
    [std::string] can hold: at [<plugins-dir>/src / <segment>], the segment
    being what follows the last '/' of the normalised URL.  The segment has
    no '/' and is the filename of the path, but it need not name a child of
    [<plugins-dir>/src]: a URL that ends in '/' has the empty segment, and
    the tree is then [<plugins-dir>/src / ""]; a URL that ends in "/.." has
    the segment "..".  For a shorthand, which is expanded, the segment is
    the last segment of what was given followed by ".git", so it is neither
    empty nor "." nor "..". *)
Theorem git_source_tree_location (url branch : string) :
  size url + 23 < npos ->
  exists g,
    GitPluginSource_ctor E url branch = Value g /\
    git_pSourcePath g
    = getPluginsPath E // "src" // last_segment (normalised_url url) /\
    has_slash (last_segment (normalised_url url)) = false /\
    Path.filename (git_pSourcePath g) = last_segment (normalised_url url) /\
    (Path.ends_with_separator (normalised_url url) = true ->
       git_pSourcePath g = getPluginsPath E // "src" // EmptyString) /\
    (forall pre, normalised_url url = pre +:+ "/.." ->
       git_pSourcePath g = getPluginsPath E // "src" // "..") /\
    (String.prefix "https://" url || String.prefix "git@" url = false ->
       last_segment (normalised_url url) = last_segment url +:+ ".git" /\
       last_segment (normalised_url url) <> EmptyString /\
       last_segment (normalised_url url) <> "." /\
       last_segment (normalised_url url) <> "..").
Proof.
  intros Hsize. pose proof (size_normalised url Hsize) as Hn.
  unfold GitPluginSource_ctor. rewrite !find_zero_prefix.
  assert ((if String.prefix "https://" url then url
           else if String.prefix "git@" url then url
           else "https://github.com/" +:+ url +:+ ".git") = normalised_url url)
    as ->.
  { unfold normalised_url. by destruct (String.prefix "https://" url). }
  rewrite (after_last_slash_spec _ Hn). eexists. split; [reflexivity|].
  cbn [git_pSourcePath]. split; [done|].
  split; [apply last_segment_no_slash|].
  split.
  { rewrite filename_append. apply filename_plain, last_segment_no_slash. }
  split.
  { intros Hsep. by rewrite (last_segment_separator _ Hsep). }
  split.
  { intros pre ->. by rewrite last_segment_app. }
  intros Hshort.
  assert (last_segment (normalised_url url) = last_segment url +:+ ".git")
    as ->.
  { unfold normalised_url. rewrite Hshort.
    rewrite (last_segment_app "https://github.com/").
    rewrite (last_segment_app url ".git").
    change (has_slash ".git") with false. cbn iota.
    rewrite has_slash_app. change (has_slash ".git") with false.
    rewrite orb_false_r.
    destruct (has_slash url) eqn:Hs; [done|].
    by rewrite (last_segment_none url Hs). }
  split; [done|]. apply dot_git_is_a_name.
Qed.

Lemma requirement_chosen_source plugin source chosen :
  (if Toml.contains plugin "git" && Toml.view_is_string (Toml.get plugin "git")
   then
     obind (deref (Toml.view_as_string (Toml.get plugin "git"))) (fun source =>
     obind (if Toml.contains plugin "branch"
               && Toml.view_is_string (Toml.get plugin "branch")
            then deref (Toml.view_as_string (Toml.get plugin "branch"))
            else Value "main") (fun branch =>
     obind (GitPluginSource_ctor E source branch) (fun g =>
       Value (source, Git g))))
   else if Toml.contains plugin "local"
           && Toml.view_is_string (Toml.get plugin "local")
   then
     obind (deref (Toml.view_as_string (Toml.get plugin "local"))) (fun source =>
       Value (source, Local (LocalPluginSource_ctor source)))
   else Throw "Plugin must have a source") = Value (source, chosen) ->
  requirement_source plugin = Some source.
Proof.
  unfold requirement_source, Toml.contains, Toml.view_is_string,
    Toml.view_as_string.
  destruct (Toml.get plugin "git") as [[url| | | |]|]; simpl.
  { destruct (if _ && _ then _ else _); [|done..]. cbn [obind].
    destruct (GitPluginSource_ctor E url a); [|done..]. cbn [obind].
    by intros [= -> _]. }
  all: destruct (Toml.get plugin "local") as [[path| | | |]|]; simpl; try done.
  all: by intros [= -> _].
Qed.

(** X17.  The name and the binary path of a requirement that was
    constructed: a [name] field that is a string is the name; without one
    the name is what follows the last '/' of the source string (the [git]
    field when it is a string, else the [local] field); the binary path is
    [<plugins-dir>/bin/<name>.so]. *)
Theorem requirement_name_and_binary (plugin : Toml.table)
    (r : PluginRequirement) :
  PluginRequirement_ctor E plugin = Value r ->
  req_pBinaryPath r = getPluginsPath E // "bin" // (req_sName r +:+ ".so") /\
  (forall name, Toml.get plugin "name" = Some (Toml.Str name) ->
     req_sName r = name) /\
  (Toml.view_is_string (Toml.get plugin "name") = false ->
     exists source,
       requirement_source plugin = Some source /\
       after_last_slash source = Some (req_sName r)).
Proof.
  unfold PluginRequirement_ctor. intros H.
  match type of H with
  | obind ?c _ = _ => destruct c as [[source chosen]| |] eqn:Hchosen
  end; [|done..].
  cbn [obind fst snd] in H. apply requirement_chosen_source in Hchosen.
  unfold Toml.contains, Toml.view_is_string, Toml.view_as_string in *.
  destruct (Toml.get plugin "name") as [[name| | | |]|]; simpl in *.
  1: { simplify_eq. simpl. split; [done|]. split; [by intros ? [= ->]|done]. }
  all: destruct (after_last_slash source) as [segment|] eqn:Hseg;
    cbn [obind] in H; [|done].
  all: simplify_eq; simpl; split; [done|]; split; [done|]; eauto.
Qed.

End Naming.

(** ** Comparing sources *)

Section ComparisonFacts.

Variable path_eq : path -> path -> bool.

(** X18.  [operator==] on two sources always has an answer: the unchecked
    cast of [isEquivalent] is reached only with a source of the same
    variant.  Sources of different variants are unequal, whatever their
    paths. *)
Theorem PluginSource_eq_is_defined (this other : PluginSource) :
  exists answer,
    PluginSource_eq path_eq this other = Value answer /\
    (typeid_differs this other = true -> answer = false) /\
    (isEquivalent path_eq this other = Undefined <->
     typeid_differs this other = true).
Proof.
  destruct this as [g|l], other as [g'|l']; simpl; eexists;
    (split; [reflexivity|]); split; try done; by split.
Qed.

Hypothesis path_eq_refl : forall p, path_eq p p = true.
Hypothesis path_eq_sym : forall p q, path_eq p q = path_eq q p.
Hypothesis path_eq_trans :
  forall p q r, path_eq p q = true -> path_eq q r = true -> path_eq p r = true.

(** X19.  When the comparison of paths is an equivalence, so is
    [operator==] on sources. *)
Theorem PluginSource_eq_equivalence :
  (forall a, PluginSource_eq path_eq a a = Value true) /\
  (forall a b, PluginSource_eq path_eq a b = PluginSource_eq path_eq b a) /\
  (forall a b c,
     PluginSource_eq path_eq a b = Value true ->
     PluginSource_eq path_eq b c = Value true ->
     PluginSource_eq path_eq a c = Value true).
Proof.
  split; [|split].
  - intros [g|l]; cbn; by rewrite ?String.eqb_refl, path_eq_refl.
  - intros [g|l] [g'|l']; cbn; try done.
    + by rewrite (String.eqb_sym (git_sUrl g)), (String.eqb_sym (git_sBranch g)),
        (path_eq_sym (git_pSourcePath g)).
    + by rewrite (path_eq_sym (local_pSourcePath l)).
  - intros [g|l] [g'|l'] [g''|l'']; cbn; try done.
    + intros [= H1] [= H2]. f_equal.
      apply andb_true_iff in H1 as [H1 Hp1]. apply andb_true_iff in H1 as [Hu1 Hb1].
      apply andb_true_iff in H2 as [H2 Hp2]. apply andb_true_iff in H2 as [Hu2 Hb2].
      apply String.eqb_eq in Hu1, Hb1, Hu2, Hb2.
      rewrite Hu1, Hu2, Hb1, Hb2, !String.eqb_refl. simpl.
      by apply path_eq_trans with (git_pSourcePath g').
    + intros [= H1] [= H2]. f_equal.
      by apply path_eq_trans with (local_pSourcePath l').
Qed.

Lemma GitPluginSource_ctor_fields (E : Env) url branch g :
  GitPluginSource_ctor E url branch = Value g ->
  git_sBranch g = branch /\
  git_sUrl g = normalised_url url /\
  exists seg,
    Str.after_last_slash (normalised_url url) = Some seg /\
    git_pSourcePath g = getPluginsPath E // "src" // seg.
Proof.
  unfold GitPluginSource_ctor. rewrite !find_zero_prefix.
  assert ((if String.prefix "https://" url then url
           else if String.prefix "git@" url then url
           else "https://github.com/" +:+ url +:+ ".git") = normalised_url url)
    as ->.
  { unfold normalised_url. by destruct (String.prefix "https://" url). }
  destruct (Str.after_last_slash (normalised_url url)) as [seg|]; [|done].
  intros [= <-]. simpl. eauto.
Qed.

(** X20.  Two Git sources that were constructed are equal exactly when they
    were given the same branch and their normalised URLs are the same: the
    path is a function of the URL and adds nothing. *)
Theorem constructed_git_sources_equal (E : Env) (url branch url' branch' : string)
    (g g' : GitPluginSource) :
  GitPluginSource_ctor E url branch = Value g ->
  GitPluginSource_ctor E url' branch' = Value g' ->
  PluginSource_eq path_eq (Git g) (Git g') = Value true <->
  normalised_url url = normalised_url url' /\ branch = branch'.
Proof.
  intros Hg Hg'.
  destruct (GitPluginSource_ctor_fields E url branch g Hg)
    as (Hb & Hu & seg & Hseg & Hp).
  destruct (GitPluginSource_ctor_fields E url' branch' g' Hg')
    as (Hb' & Hu' & seg' & Hseg' & Hp').
  cbn. rewrite Hb, Hb', Hu, Hu'. split.
  - intros [= H]. apply andb_true_iff in H as [H _].
    apply andb_true_iff in H as [H1 H2]. by apply String.eqb_eq in H1, H2.
  - intros [Hurl ->]. rewrite Hurl in Hseg |- *.
    rewrite Hseg in Hseg'. injection Hseg' as <-.
    by rewrite Hp, Hp', !String.eqb_refl, path_eq_refl.
Qed.

End ComparisonFacts.

(** ** The further properties on the samples *)

Lemma PluginManifest_ctor_decisions_witness :
  is_value (PluginManifest_ctor "widget" Sample.widget_table) = true /\
  PluginManifest_ctor "widget" Sample.bad_version_table = Undefined /\
  PluginManifest_ctor "baz" [("version", Toml.Str "1.0")]
  = Throw "Plugin must have a build table".
Proof.
  split; [|split].
  - destruct (PluginManifest_ctor_decisions "widget" Sample.widget_table)
      as [_ H].
    destruct (H eq_refl) as [_ H1]. destruct (H1 eq_refl) as [_ H2].
    destruct (H2 _ eq_refl) as [_ H3]. destruct (H3 _ eq_refl) as [_ H4].
    exact (H4 eq_refl).
  - destruct (PluginManifest_ctor_decisions "widget" Sample.bad_version_table)
      as [_ H].
    destruct (H eq_refl) as [H1 _]. exact (H1 eq_refl).
  - destruct (PluginManifest_ctor_decisions "baz" [("version", Toml.Str "1.0")])
      as [_ H].
    destruct (H eq_refl) as [_ H1]. destruct (H1 eq_refl) as [H2 _].
    exact (H2 eq_refl).
Defined.

Lemma PluginManifest_fields_witness :
  getName More.beta_manifest = "beta" /\
  getVersion More.beta_manifest
  = match Toml.get More.beta_table "version" with
    | Some (Toml.Str v) => v
    | _ => "0.0.0"
    end /\
  getDescription More.beta_manifest
  = match Toml.get More.beta_table "description" with
    | Some (Toml.Str d) => d
    | _ => "No description provided"
    end /\
  (exists build,
     Toml.get More.beta_table "build" = Some (Toml.Table build) /\
     getBinaryOutputPath More.beta_manifest
     = match Toml.get build "output" with
       | Some (Toml.Str output) => output
       | _ => "beta" +:+ ".so"
       end) /\
  (forall authors,
     Toml.get More.beta_table "authors" = Some (Toml.Array authors) ->
     authors = map Toml.Str (getAuthors More.beta_manifest)).
Proof.
  apply (PluginManifest_fields "beta" More.beta_table More.beta_manifest).
  reflexivity.
Defined.

Lemma HyprloadManifest_plugins_witness :
  map getName (getPlugins More.mixed_manifest)
  = map fst (table_entries More.mixed_document) /\
  Forall2 (fun plugin entry =>
             exists t, entry.2 = Toml.Table t /\
                       PluginManifest_ctor entry.1 t = Value plugin)
          (getPlugins More.mixed_manifest) (table_entries More.mixed_document).
Proof.
  apply (HyprloadManifest_plugins More.mixed_document More.mixed_manifest).
  reflexivity.
Defined.

Lemma find_plugin_after_construction_witness :
  (forall t, Toml.get More.mixed_document "beta" = Some (Toml.Table t) ->
     exists m, PluginManifest_ctor "beta" t = Value m /\
               find_plugin "beta" (getPlugins More.mixed_manifest) = Some m) /\
  ((forall t, ("beta", Toml.Table t) ∉ More.mixed_document) ->
     find_plugin "beta" (getPlugins More.mixed_manifest) = None).
Proof.
  apply (find_plugin_after_construction More.mixed_document More.mixed_manifest
           "beta").
  reflexivity.
Defined.

Lemma malformed_entry_escapes_witness :
  is_value (result_of (getPluginManifest More.spoiled_env "/p/src/bar.git" "bar"
                         Sim.bar_cloned)) = false /\
  is_value (result_of (buildPlugin More.spoiled_env "/p/src/bar.git" "bar"
                         Sim.bar_cloned)) = false /\
  Forall (fun ev => runs_command ev = false)
         (trace_of (buildPlugin More.spoiled_env "/p/src/bar.git" "bar"
                      Sim.bar_cloned)).
Proof.
  apply (malformed_entry_escapes More.spoiled_env "/p/src/bar.git" "bar"
           Sim.bar_cloned More.spoiled_document "baz"
           [("version", Toml.Str "1.0")]).
  - reflexivity.
  - reflexivity.
  - apply list_elem_of_In. vm_compute. right. left. reflexivity.
  - reflexivity.
Defined.

Lemma buildPlugin_runs_build_line_witness :
  buildPlugin Sim.bar_env "/p/src/bar.git" "bar" Sim.bar_cloned
  = (Value (ok tt), Sim.built Sim.bar_config ++ Sim.bar_cloned,
     [EvHeaders; EvExists "/p/src/bar.git/hyprload.toml";
      EvParse "/p/src/bar.git/hyprload.toml";
      EvPopen "export HYPRLAND_HEADERS=/usr/include/hyprland && cd /p/src/bar.git && make && cd -"]).
Proof.
  rewrite (buildPlugin_runs_build_line Sim.bar_env "/p/src/bar.git" "bar"
             Sim.bar_cloned "/usr/include/hyprland" Sim.bar_manifest
             ltac:(reflexivity) ltac:(vm_compute; reflexivity)).
  vm_compute. reflexivity.
Defined.

Lemma git_isUpToDate_exactly_witness :
  GitPluginSource_isUpToDate More.offline_env Sim.bar_source Sim.bar_cloned
  = (Value false, Sim.bar_cloned, [EvSystem "git -C /p/src/bar.git remote update"]) /\
  result_of (GitPluginSource_isUpToDate Sim.bar_env Sim.bar_source Sim.bar_cloned)
  = Value false /\
  result_of (GitPluginSource_isUpToDate Sim.failing_pipe_env Sim.bar_source
               Sim.bar_cloned) = Value true.
Proof.
  split; [|split].
  - destruct (git_isUpToDate_exactly More.offline_env Sim.bar_source
                Sim.bar_cloned) as [Hfail _].
    rewrite Hfail; [reflexivity|]. vm_compute. lia.
  - destruct (git_isUpToDate_exactly Sim.bar_env Sim.bar_source Sim.bar_cloned)
      as [_ Hok].
    destruct (Hok ltac:(reflexivity)) as [_ ->]. vm_compute. reflexivity.
  - destruct (git_isUpToDate_exactly Sim.failing_pipe_env Sim.bar_source
                Sim.bar_cloned) as [_ Hok].
    destruct (Hok ltac:(reflexivity)) as [_ ->]. vm_compute. reflexivity.
Defined.

Lemma git_update_pulls_then_installs_witness :
  GitPluginSource_update More.offline_env Sim.bar_source "bar" Sim.bar_cloned
  = (Value (err "Failed to update plugin source"), Sim.bar_cloned,
     [EvSystem "git -C /p/src/bar.git pull"]) /\
  trace_of (GitPluginSource_update Sim.bar_env Sim.bar_source "bar" Sim.bar_cloned)
  = EvSystem "git -C /p/src/bar.git pull"
      :: trace_of (GitPluginSource_install Sim.bar_env Sim.bar_source "bar"
                     (Sim.bar_cloned ++ Sim.bar_cloned)).
Proof.
  split.
  - destruct (git_update_pulls_then_installs More.offline_env Sim.bar_source
                "bar" Sim.bar_cloned) as [Hfail _].
    rewrite Hfail; [reflexivity|]. vm_compute. lia.
  - destruct (git_update_pulls_then_installs Sim.bar_env Sim.bar_source "bar"
                Sim.bar_cloned) as [_ Hok].
    rewrite (Hok ltac:(reflexivity)). reflexivity.
Defined.

Lemma local_install_fails_or_publishes_witness :
  LocalPluginSource_install Sim.bar_env More.bar_directory "bar" []
  = (Value (err "Source for bar does not exist"), [],
     [EvExists "/p/src/bar.git"]) /\
  trace_of (LocalPluginSource_install Sim.bar_env More.bar_directory "bar"
              More.bar_checked_out)
  = [EvExists "/p/src/bar.git"; EvHeaders;
     EvExists "/p/src/bar.git/hyprload.toml";
     EvParse "/p/src/bar.git/hyprload.toml";
     EvPopen "export HYPRLAND_HEADERS=/usr/include/hyprland && cd /p/src/bar.git && make && cd -";
     EvExists "/p/src/bar.git/hyprload.toml";
     EvParse "/p/src/bar.git/hyprload.toml";
     EvExists "/p/src/bar.git/libbar.so";
     EvExists "/p/bin/libbar.so";
     EvCopy "/p/src/bar.git/libbar.so" "/p/bin/libbar.so"].
Proof.
  split.
  - destruct (local_install_fails_or_publishes Sim.bar_env More.bar_directory
                "bar" []) as [Habsent _].
    rewrite (Habsent ltac:(reflexivity)). reflexivity.
  - destruct (local_install_fails_or_publishes Sim.bar_env More.bar_directory
                "bar" More.bar_checked_out) as [_ Hpresent].
    set (b := LocalPluginSource_build Sim.bar_env More.bar_directory "bar"
                More.bar_checked_out).
    assert (b = (Value (ok tt), state_of b, trace_of b)) as Hb
      by (vm_compute; reflexivity).
    destruct (Hpresent ltac:(vm_compute; reflexivity) _ _ _ Hb) as [_ Hok].
    set (l := getPluginManifest Sim.bar_env
                (local_pSourcePath More.bar_directory) "bar" (state_of b)).
    assert (l = (Value (ok Sim.bar_manifest), state_of l, trace_of l)) as Hl
      by (vm_compute; reflexivity).
    destruct (Hok eq_refl _ _ _ Hl) as [_ Hpub].
    destruct (Hpub Sim.bar_manifest eq_refl) as [_ Hcopy].
    set (s2 := state_of l) in *.
    rewrite (Hcopy ltac:(vm_compute; reflexivity) false s2
               (("/p/bin/libbar.so", "ELF") :: s2)
               ltac:(vm_compute; reflexivity)
               ltac:(vm_compute; reflexivity)
               ltac:(vm_compute; reflexivity)).
    vm_compute. reflexivity.
Defined.

Lemma install_touches_only_the_target_witness :
  exists s1 tb m s2 tm,
    fs_exists Sim.bar_env (presence_marker (Git Sim.bar_source)) Sim.bar_cloned
    = Some true /\
    buildPlugin Sim.bar_env (sourcePath (Git Sim.bar_source)) "bar"
      Sim.bar_cloned
    = (Value (ok tt), s1, tb) /\
    getPluginManifest Sim.bar_env (sourcePath (Git Sim.bar_source)) "bar" s1
    = (Value (ok m), s2, tm) /\
    fs_exists Sim.bar_env
      (outputBinary_of (sourcePath (Git Sim.bar_source)) m) s2
    = Some true /\
    ((EvCopy "/p/src/bar.git/libbar.so" "/p/bin/libbar.so"
      = EvRemove (targetPath_of Sim.bar_env (sourcePath (Git Sim.bar_source)) m)
      /\ fs_exists Sim.bar_env
           (targetPath_of Sim.bar_env (sourcePath (Git Sim.bar_source)) m) s2
         = Some true) \/
     EvCopy "/p/src/bar.git/libbar.so" "/p/bin/libbar.so"
     = EvCopy (outputBinary_of (sourcePath (Git Sim.bar_source)) m)
              (targetPath_of Sim.bar_env (sourcePath (Git Sim.bar_source)) m)).
Proof.
  apply (install_touches_only_the_target Sim.bar_env (Git Sim.bar_source) "bar"
           Sim.bar_cloned).
  - apply list_elem_of_In. vm_compute. do 9 right. left. reflexivity.
  - reflexivity.
Defined.

Lemma failed_build_publishes_nothing_witness :
  quiet (trace_of (install Sim.no_headers_env (Git Sim.bar_source) "bar"
                     Sim.bar_cloned)).
Proof.
  apply (failed_build_publishes_nothing Sim.no_headers_env (Git Sim.bar_source)
           "bar" Sim.bar_cloned).
  vm_compute. discriminate.
Defined.

Lemma derived_name_is_last_segment_witness :
  exists pre name,
    Str.after_last_slash "https://github.com/foo/bar.git" = Some name /\
    "https://github.com/foo/bar.git" = pre +:+ name /\
    Str.has_slash name = false /\
    (pre = EmptyString \/ Path.ends_with_separator pre = true) /\
    (Str.has_slash "https://github.com/foo/bar.git" = false ->
     name = "https://github.com/foo/bar.git").
Proof.
  apply (derived_name_is_last_segment "https://github.com/foo/bar.git").
  vm_compute. reflexivity.
Defined.

Lemma git_source_tree_location_witness :
  (exists g,
     GitPluginSource_ctor Sim.bar_env "team/tool" "dev" = Value g /\
     git_pSourcePath g = "/p/src/tool.git") /\
  (exists g,
     GitPluginSource_ctor Sim.bar_env "https://example.org/team/" "dev"
     = Value g /\
     git_pSourcePath g = "/p/src/") /\
  (exists g,
     GitPluginSource_ctor Sim.bar_env "git@example.org:team/.." "dev"
     = Value g /\
     git_pSourcePath g = "/p/src/..").
Proof.
  split; [|split].
  - destruct (git_source_tree_location Sim.bar_env "team/tool" "dev"
                ltac:(vm_compute; reflexivity))
      as (g & Hg & Hpath & _).
    exists g. split; [exact Hg|]. rewrite Hpath. vm_compute. reflexivity.
  - destruct (git_source_tree_location Sim.bar_env "https://example.org/team/"
                "dev" ltac:(vm_compute; reflexivity))
      as (g & Hg & _ & _ & _ & Hempty & _).
    exists g. split; [exact Hg|]. rewrite (Hempty eq_refl).
    vm_compute. reflexivity.
  - destruct (git_source_tree_location Sim.bar_env "git@example.org:team/.."
                "dev" ltac:(vm_compute; reflexivity))
      as (g & Hg & _ & _ & _ & _ & Hup & _).
    exists g. split; [exact Hg|].
    rewrite (Hup "git@example.org:team" eq_refl). vm_compute. reflexivity.
Defined.

Lemma requirement_name_and_binary_witness :
  req_pBinaryPath
    {| req_sName := "gadget";
       req_pSource := Local (LocalPluginSource_ctor "/home/u/widget");
       req_pBinaryPath := "/p/bin/gadget.so" |}
  = getPluginsPath Sim.bar_env // "bin" // ("gadget" +:+ ".so") /\
  (exists r source,
     PluginRequirement_ctor Sim.bar_env Sim.mistyped_git_requirement = Value r /\
     requirement_source Sim.mistyped_git_requirement = Some source /\
     Str.after_last_slash source = Some (req_sName r)).
Proof.
  split.
  - destruct (requirement_name_and_binary Sim.bar_env More.named_requirement
                {| req_sName := "gadget";
                   req_pSource := Local (LocalPluginSource_ctor "/home/u/widget");
                   req_pBinaryPath := "/p/bin/gadget.so" |} eq_refl)
      as [H _].
    exact H.
  - eexists.
    destruct (requirement_name_and_binary Sim.bar_env
                Sim.mistyped_git_requirement _ eq_refl) as (_ & _ & H).
    destruct (H eq_refl) as (source & Hs & Hn). eauto.
Defined.

Lemma PluginSource_eq_is_defined_witness :
  PluginSource_eq String.eqb (Git Sim.bar_source) (Local More.bar_directory)
  = Value false.
Proof.
  destruct (PluginSource_eq_is_defined String.eqb (Git Sim.bar_source)
              (Local More.bar_directory)) as (answer & -> & Hdiffers & _).
  by rewrite (Hdiffers eq_refl).
Defined.

Lemma PluginSource_eq_equivalence_witness :
  (forall a, PluginSource_eq String.eqb a a = Value true) /\
  (forall a b, PluginSource_eq String.eqb a b = PluginSource_eq String.eqb b a) /\
  (forall a b c,
     PluginSource_eq String.eqb a b = Value true ->
     PluginSource_eq String.eqb b c = Value true ->
     PluginSource_eq String.eqb a c = Value true).
Proof.
  apply (PluginSource_eq_equivalence String.eqb).
  - apply String.eqb_refl.
  - apply String.eqb_sym.
  - intros p q r Hpq%String.eqb_eq Hqr%String.eqb_eq. subst.
    apply String.eqb_refl.
Defined.

Lemma constructed_git_sources_equal_witness :
  PluginSource_eq String.eqb (Git Sim.bar_source) (Git Sim.bar_source) = Value true <->
  normalised_url "foo/bar" = normalised_url "https://github.com/foo/bar.git" /\
  "main" = "main".
Proof.
  apply (constructed_git_sources_equal String.eqb String.eqb_refl Sim.bar_env
           "foo/bar" "main" "https://github.com/foo/bar.git" "main"
           Sim.bar_source Sim.bar_source); reflexivity.
Defined.
